(** * Pushover notifications and the MySQL query-log sink of AdGuardHome

    A shallow embedding of [internal/dnsforward/notifications.go] (the two
    rate limiters, the admission decision, the formatting and the sending of
    a notification) and of [internal/querylog/mysql.go] (the arguments of the
    INSERT statement), with the properties the specification states about
    them. *)

From Stdlib Require Import ZArith Lia.
From stdpp Require Import gmap strings list fin_maps pretty.

Local Open Scope Z_scope.

(** ** The [time] package, as far as the limiters use it *)

Module time.

(** [time.Duration] is an [int64] count of nanoseconds. *)
Abbreviation Duration := Z (only parsing).

Definition minDuration : Duration := - 2 ^ 63.
Definition maxDuration : Duration := 2 ^ 63 - 1.

(** Two's-complement wrap-around of [int64] arithmetic. *)
Definition wrap64 (x : Z) : Duration := (x + 2 ^ 63) mod 2 ^ 64 - 2 ^ 63.

Definition Nanosecond : Duration := 1.
Definition Microsecond : Duration := 1000 * Nanosecond.
Definition Millisecond : Duration := 1000 * Microsecond.
Definition Second : Duration := 1000 * Millisecond.
Definition Minute : Duration := 60 * Second.

(** Unary minus and product of durations: [int64] operations.  (Products
    of constants, like [5 * time.Minute], are computed exactly by the
    compiler.) *)
Definition neg (d : Duration) : Duration := wrap64 (- d).
Definition mul (d e : Duration) : Duration := wrap64 (d * e).

(** Quotient of durations: Go truncates towards zero and panics when the
    divisor is zero ([None]). *)
Definition div (d e : Duration) : option Duration :=
  if e =? 0 then None else Some (wrap64 (d ÷ e)).

(** A [time.Time] is an instant; it is modelled by its distance in
    nanoseconds from the zero [Time], on the one time line the clock of
    the process reads.  The zero value of the type is instant [0]. *)
Abbreviation Time := Z (only parsing).

Definition zero : Time := 0.

(** [t.Sub(u)]: the duration [t - u], replaced by the maximum (minimum)
    duration when it exceeds what a [Duration] can hold. *)
Definition Sub (t u : Time) : Duration :=
  if t - u <? minDuration then minDuration
  else if maxDuration <? t - u then maxDuration
  else t - u.

(** [t.Add(d)]. *)
Definition Add (t : Time) (d : Duration) : Time := t + d.

(** [t.Before(u)]. *)
Definition Before (t u : Time) : bool := t <? u.

(** The layout [time.RFC3339]. *)
Definition RFC3339 : string := "2006-01-02T15:04:05Z07:00".

End time.

(** ** The per-domain limiter *)

Module domainRateLimit.

Record t : Type := mk {
  lastNotified : gmap string time.Time;
  interval : time.Duration
}.

(** [shouldNotify]; [now] is the reading of [time.Now()].  The result is
    the returned boolean and the limiter after the call. *)
Definition shouldNotify (r : t) (domain : string) (now : time.Time) : bool * t :=
  match lastNotified r !! domain with
  | Some last =>
      if time.Sub now last <? interval r then (false, r)
      else (true, mk (<[domain := now]> (lastNotified r)) (interval r))
  | None => (true, mk (<[domain := now]> (lastNotified r)) (interval r))
  end.

(** The body of the loop of [cleanup], run on one entry of the map. *)
Definition cleanup_entry (cutoff : time.Time)
    (domain : string) (t0 : time.Time) (m : gmap string time.Time) :
    gmap string time.Time :=
  if time.Before t0 cutoff then delete domain m else m.

(** [cleanup]: the loop ranges over the entries of the map and deletes
    from that same map. *)
Definition cleanup (r : t) (now : time.Time) : t :=
  let cutoff := time.Add now (time.mul (time.neg (interval r)) 2) in
  mk (map_fold (cleanup_entry cutoff) (lastNotified r) (lastNotified r))
     (interval r).

End domainRateLimit.

(** [newDomainRateLimit]; [perFiveMinutes] is a Go [int], converted to a
    [Duration] without change.  [None] is a run-time panic. *)
Definition newDomainRateLimit (perFiveMinutes : Z) : option domainRateLimit.t :=
  let interval := Some (5 * time.Minute) in
  let interval :=
    if 1 <? perFiveMinutes
    then time.div (5 * time.Minute) perFiveMinutes
    else interval in
  match interval with
  | Some i => Some (domainRateLimit.mk ∅ i)
  | None => None
  end.

(** ** The global limiter *)

Module globalRateLimit.

Record t : Type := mk {
  lastSent : time.Time;
  interval : time.Duration
}.

Definition shouldNotify (r : t) (now : time.Time) : bool * t :=
  if time.Sub now (lastSent r) <? interval r then (false, r)
  else (true, mk now (interval r)).

End globalRateLimit.

(** [newGlobalRateLimit]; [lastSent] starts as the zero [Time]. *)
Definition newGlobalRateLimit (perMinute : Z) : option globalRateLimit.t :=
  let interval := Some time.Minute in
  let interval :=
    if 1 <? perMinute
    then time.div time.Minute perMinute
    else interval in
  match interval with
  | Some i => Some (globalRateLimit.mk time.zero i)
  | None => None
  end.

(** ** What the notifier takes from other packages *)

Module filtering.

(** [filtering.Reason] is an integer type.  Its declaration and the values
    of its constants belong to [internal/filtering]; the four constants
    that [formatTitle] names are taken as parameters.  They are the case
    expressions of one [switch], which the compiler only accepts when they
    are pairwise different. *)
Definition Reason : Type := Z.

Class Consts : Type := {
  FilteredBlockList : Reason;
  NotFilteredAllowList : Reason;
  Rewritten : Reason;
  RewrittenRule : Reason;
  Consts_NoDup :
    NoDup [FilteredBlockList; NotFilteredAllowList; Rewritten; RewrittenRule]
}.

End filtering.

(** Go's [error] interface: an error is modelled by its message, and the
    [nil] error of a result by [None]. *)
Definition error : Type := string.

Module url.

(** [url.Values] is [map[string][]string]; this is its method [Set]. *)
Definition Values_Set (v : gmap string (list string)) (key value : string) :
    gmap string (list string) :=
  <[key := [value]]> v.

End url.

Module http.

Definition StatusOK : Z := 200.
Definition MethodPost : string := "POST".

Record Client : Type := { Timeout : time.Duration }.

(** A request.  [Body] holds the form the body is the encoding of
    ([data.Encode()], by [net/url]: every key with its values). *)
Record Request : Type := {
  Method : string;
  URL : string;
  Header : gmap string (list string);
  Body : gmap string (list string)
}.

Record Response : Type := { StatusCode : Z }.

(** [http.NewRequestWithContext] with a valid method and a URL that
    parses: the one error left is the [nil] context.  [ctx] tells whether
    the context is non-nil. *)
Definition NewRequestWithContext (ctx : bool) (method url : string)
    (body : gmap string (list string)) : Request + error :=
  if ctx then inl {| Method := method; URL := url; Header := ∅; Body := body |}
  else inr "net/http: nil Context".

Definition Header_Set (req : Request) (key value : string) : Request :=
  {| Method := Method req; URL := URL req;
     Header := <[key := [value]]> (Header req); Body := Body req |}.

End http.

(** ** The notifier *)

Definition pushoverAPIURL : string := "https://api.pushover.net/1/messages.json".

Record PushoverConfig : Type := {
  AppToken : string;
  UserKey : string;
  Sound : string;
  RateLimitPer5Min : Z;
  GlobalRateLimitPerMin : Z;
  Priority : Z
}.

(** The logger is left out: nothing it does reaches a result. *)
Record PushoverNotifier : Type := {
  client : http.Client;
  domainRateLimit : domainRateLimit.t;
  globalRateLimit : globalRateLimit.t;
  config : PushoverConfig
}.

Definition NewPushoverNotifier (config : PushoverConfig) : option PushoverNotifier :=
  match newDomainRateLimit (RateLimitPer5Min config) with
  | None => None
  | Some d =>
      match newGlobalRateLimit (GlobalRateLimitPerMin config) with
      | None => None
      | Some g =>
          Some {| client := {| http.Timeout := 10 * time.Second |};
                  domainRateLimit := d; globalRateLimit := g; config := config |}
      end
  end.

Record NotificationEvent : Type := {
  Domain : string;
  RuleText : string;
  ClientIP : string;
  ClientID : string;
  Reason : filtering.Reason;
  Timestamp : time.Time
}.

(** [ShouldNotify].  Each limiter reads the clock itself: [nowGlobal] is the
    reading inside [globalRateLimit.shouldNotify], [nowDomain] the one
    inside [domainRateLimit.shouldNotify]. *)
Definition ShouldNotify (n : PushoverNotifier) (domain : string)
    (nowGlobal nowDomain : time.Time) : (bool * string) * PushoverNotifier :=
  let '(okGlobal, g) := globalRateLimit.shouldNotify (globalRateLimit n) nowGlobal in
  let n := {| client := client n; domainRateLimit := domainRateLimit n;
              globalRateLimit := g; config := config n |} in
  if negb okGlobal then ((false, "global"), n)
  else
    let '(okDomain, d) := domainRateLimit.shouldNotify (domainRateLimit n) domain nowDomain in
    let n := {| client := client n; domainRateLimit := d;
                globalRateLimit := globalRateLimit n; config := config n |} in
    if negb okDomain then ((false, "domain"), n)
    else ((true, ""), n).

(** [Cleanup]. *)
Definition Cleanup (n : PushoverNotifier) (now : time.Time) : PushoverNotifier :=
  {| client := client n;
     domainRateLimit := domainRateLimit.cleanup (domainRateLimit n) now;
     globalRateLimit := globalRateLimit n; config := config n |}.

(** A run of admission requests, each with its domain and its two clock
    readings; the answers come in the order of the requests. *)
Fixpoint ShouldNotify_all (n : PushoverNotifier)
    (reqs : list (string * time.Time * time.Time)) :
    list (bool * string) * PushoverNotifier :=
  match reqs with
  | [] => ([], n)
  | (domain, nowGlobal, nowDomain) :: reqs =>
      let '(a, n) := ShouldNotify n domain nowGlobal nowDomain in
      let '(answers, n) := ShouldNotify_all n reqs in
      (a :: answers, n)
  end.

(** [formatTitle]: the cases of the [switch], tried from the top. *)
Definition formatTitle `{filtering.Consts} (reason : filtering.Reason) : string :=
  if reason =? filtering.FilteredBlockList then "AdGuard: Domain Blocked"
  else if reason =? filtering.NotFilteredAllowList then "AdGuard: Domain Allowed"
  else if (reason =? filtering.Rewritten) || (reason =? filtering.RewrittenRule)
  then "AdGuard: Domain Rewritten"
  else "AdGuard: Custom Rule Match".

(** The line feed of the format string of [formatMessage]. *)
Definition LF : string := String (Ascii.ascii_of_nat 10) "".

Section Send.

Context `{filtering.Consts}.

(** [(time.Time).Format], of the standard library: the time, then the
    layout. *)
Variable Format : time.Time → string → string.

(** The method [Do] of [http.Client], from [net/http]: what the network
    answers to a request, a response or a transport-level error. *)
Variable Do : http.Client → http.Request → http.Response + error.

(** [formatMessage]; [%s] puts the string itself. *)
Definition formatMessage (event : NotificationEvent) : string :=
  let clientInfo := ClientIP event in
  let clientInfo :=
    if negb (String.eqb (ClientID event) "")
    then ClientID event +:+ " (" +:+ ClientIP event +:+ ")"
    else clientInfo in
  "Domain: " +:+ Domain event +:+ LF +:+
  "Client: " +:+ clientInfo +:+ LF +:+
  "Time: " +:+ Format (Timestamp event) time.RFC3339.

(** The first half of [send]: the request that is handed to [client.Do],
    or the error [send] returns before that.  [%d] is the decimal
    numeral, with [-] before a negative number. *)
Definition send_request (n : PushoverNotifier) (ctx : bool)
    (event : NotificationEvent) : http.Request + error :=
  let title := formatTitle (Reason event) in
  let message := formatMessage event in
  let data : gmap string (list string) :=
    {[ "token" := [AppToken (config n)];
       "user" := [UserKey (config n)];
       "title" := [title];
       "message" := [message] ]} in
  let data :=
    if negb (Priority (config n) =? 0)
    then url.Values_Set data "priority" (pretty (Priority (config n)))
    else data in
  let data :=
    if negb (String.eqb (Sound (config n)) "")
    then url.Values_Set data "sound" (Sound (config n))
    else data in
  match http.NewRequestWithContext ctx http.MethodPost pushoverAPIURL data with
  | inr err => inr ("creating request: " +:+ err)
  | inl req =>
      inl (http.Header_Set req "Content-Type" "application/x-www-form-urlencoded")
  end.

(** [send]: [None] is the [nil] error. *)
Definition send (n : PushoverNotifier) (ctx : bool)
    (event : NotificationEvent) : option error :=
  match send_request n ctx event with
  | inr err => Some err
  | inl req =>
      match Do (client n) req with
      | inr err => Some ("sending request: " +:+ err)
      | inl resp =>
          if negb (http.StatusCode resp =? http.StatusOK)
          then Some ("pushover returned status " +:+ pretty (http.StatusCode resp))
          else None
      end
  end.

End Send.

(** ** The MySQL sink of the query log *)

Module querylog.

(** The fields of [filtering.Result] and of its rules that [insertEntry]
    reads. *)
Record ResultRule : Type := { Text : string }.

Record FilteringResult : Type := {
  IsFiltered : bool;
  Reason : filtering.Reason;
  Rules : list ResultRule;
  ServiceName : string
}.

Record logEntry : Type := {
  Time : time.Time;
  QHost : string;
  QType : string;
  QClass : string;
  ReqECS : string;
  ClientID : string;
  ClientProto : string;
  Upstream : string;
  Answer : list Byte.byte;
  OrigAnswer : list Byte.byte;
  IP : list Byte.byte;
  Result : FilteringResult;
  Elapsed : time.Duration;
  Cached : bool;
  AuthenticatedData : bool
}.

Record mysqlClient : Type := { hostname : string }.

(** An argument of [ExecContext]: a [nil] pointer is SQL's NULL, any
    other pointer stands for the value it points to. *)
Inductive arg : Type :=
| NULL
| Int (z : Z)
| Str (s : string)
| Bool (b : bool)
| Bytes (l : list Byte.byte)
| Instant (t0 : time.Time).

Definition ptr_int (p : option Z) : arg :=
  match p with Some z => Int z | None => NULL end.

Definition ptr_string (p : option string) : arg :=
  match p with Some s => Str s | None => NULL end.

(** The columns of [insertSQL], in the order of its placeholders. *)
Definition insertSQL : list string :=
  [ "time"; "server_hostname"; "client_ip"; "client_id"; "client_proto";
    "query_host"; "query_type"; "query_class"; "upstream"; "elapsed_ns";
    "cached"; "authenticated_data"; "ecs"; "answer"; "orig_answer";
    "is_filtered"; "filter_reason"; "filter_rule"; "service_name";
    "result_json" ].

(** [nullString]. *)
Definition nullString (s : string) : option string :=
  if String.eqb s "" then None else Some s.

(** The argument that a statement binds to a column: the one at the
    position of the column's placeholder. *)
Fixpoint bound (columns : list string) (args : list arg) (column : string) :
    option arg :=
  match columns, args with
  | c :: columns, a :: args =>
      if String.eqb c column then Some a else bound columns args column
  | _, _ => None
  end.

Section Insert.

(** The method [String] of [net.IP], [json.Marshal] on a
    [filtering.Result] (the text or an error) and the method
    [ExecContext] of [sql.DB] with its statement and arguments (the
    error it returns) are not this package's. *)
Variable IP_String : list Byte.byte → string.
Variable json_Marshal : FilteringResult → string + error.
Variable ExecContext : list string → list arg → option error.

(** The three pointers [insertEntry] declares and fills. *)
Definition insertEntry_pointers (entry : logEntry) :
    option Z * option string * option string :=
  let filterReason : option Z := None in
  let filterRule : option string := None in
  let serviceName : option string := None in
  if IsFiltered (Result entry) then
    let filterReason := Some (Reason (Result entry)) in
    let filterRule :=
      match Rules (Result entry) with
      | rule :: _ => Some (Text rule)
      | [] => filterRule
      end in
    let serviceName :=
      if negb (String.eqb (ServiceName (Result entry)) "")
      then Some (ServiceName (Result entry))
      else serviceName in
    (filterReason, filterRule, serviceName)
  else (filterReason, filterRule, serviceName).

(** The arguments [insertEntry] passes after the statement. *)
Definition insertEntry_args (c : mysqlClient) (entry : logEntry) : list arg :=
  let '(filterReason, filterRule, serviceName) := insertEntry_pointers entry in
  let resultJSON :=
    match json_Marshal (Result entry) with
    | inl text => text
    | inr _ => "{}"
    end in
  [ Instant (Time entry);
    Str (hostname c);
    Str (IP_String (IP entry));
    ptr_string (nullString (ClientID entry));
    Str (ClientProto entry);
    Str (QHost entry);
    Str (QType entry);
    Str (QClass entry);
    ptr_string (nullString (Upstream entry));
    Int (Elapsed entry);
    Bool (Cached entry);
    Bool (AuthenticatedData entry);
    ptr_string (nullString (ReqECS entry));
    Bytes (Answer entry);
    Bytes (OrigAnswer entry);
    Bool (IsFiltered (Result entry));
    ptr_int filterReason;
    ptr_string filterRule;
    ptr_string serviceName;
    Str resultJSON ].

(** [insertEntry]. *)
Definition insertEntry (c : mysqlClient) (entry : logEntry) : option error :=
  ExecContext insertSQL (insertEntry_args c entry).

End Insert.

(** A column of [createTableSQL]: its name, its type and whether it is
    declared NOT NULL (the key [id] is filled by the server). *)
Record column : Type := {
  col_name : string;
  col_type : string;
  not_null : bool
}.

Definition createTableSQL : list column :=
  [ {| col_name := "id"; col_type := "BIGINT"; not_null := true |};
    {| col_name := "time"; col_type := "DATETIME(6)"; not_null := true |};
    {| col_name := "server_hostname"; col_type := "VARCHAR(255)"; not_null := true |};
    {| col_name := "client_ip"; col_type := "VARCHAR(45)"; not_null := true |};
    {| col_name := "client_id"; col_type := "VARCHAR(255)"; not_null := false |};
    {| col_name := "client_proto"; col_type := "VARCHAR(20)"; not_null := true |};
    {| col_name := "query_host"; col_type := "VARCHAR(255)"; not_null := true |};
    {| col_name := "query_type"; col_type := "VARCHAR(10)"; not_null := true |};
    {| col_name := "query_class"; col_type := "VARCHAR(10)"; not_null := true |};
    {| col_name := "upstream"; col_type := "VARCHAR(255)"; not_null := false |};
    {| col_name := "elapsed_ns"; col_type := "BIGINT"; not_null := true |};
    {| col_name := "cached"; col_type := "BOOLEAN"; not_null := false |};
    {| col_name := "authenticated_data"; col_type := "BOOLEAN"; not_null := false |};
    {| col_name := "ecs"; col_type := "VARCHAR(50)"; not_null := false |};
    {| col_name := "answer"; col_type := "MEDIUMBLOB"; not_null := false |};
    {| col_name := "orig_answer"; col_type := "MEDIUMBLOB"; not_null := false |};
    {| col_name := "is_filtered"; col_type := "BOOLEAN"; not_null := false |};
    {| col_name := "filter_reason"; col_type := "SMALLINT"; not_null := false |};
    {| col_name := "filter_rule"; col_type := "TEXT"; not_null := false |};
    {| col_name := "service_name"; col_type := "VARCHAR(100)"; not_null := false |};
    {| col_name := "result_json"; col_type := "TEXT"; not_null := false |} ].

(** What [newMySQLClient] calls on the database handle, the system and the
    logger. *)
Inductive call : Type :=
| sql_Open (driver dsn : string)
| SetMaxOpenConns (k : Z)
| SetMaxIdleConns (k : Z)
| SetConnMaxLifetime (d : time.Duration)
| PingContext
| ExecContext_createTableSQL
| os_Hostname
| InfoContext (msg hostname : string)
| Close.

(** What the calls that can fail answer: the errors of [sql.Open],
    [db.PingContext] and [db.ExecContext] ([None] is [nil]), and the result
    of [os.Hostname]. *)
Record outcomes : Type := {
  Open_err : option error;
  Ping_err : option error;
  Exec_err : option error;
  Hostname_res : string + error
}.

(** The deferred function of [newMySQLClient]: it runs at every return
    after the handle is open and closes the handle when the named result
    [err] is not [nil]. *)
Definition deferred_Close (ret : option mysqlClient * option error)
    (calls : list call) : (option mysqlClient * option error) * list call :=
  match ret.2 with
  | Some _ => (ret, calls ++ [Close])
  | None => (ret, calls)
  end.

(** [newMySQLClient]: the results [(c, err)] and the calls made, in order. *)
Definition newMySQLClient (w : outcomes) (dsn : string) :
    (option mysqlClient * option error) * list call :=
  let calls := [sql_Open "mysql" dsn] in
  match Open_err w with
  | Some err => ((None, Some err), calls)
  | None =>
      let calls := calls ++ [SetMaxOpenConns 10; SetMaxIdleConns 5;
                             SetConnMaxLifetime (5 * time.Minute)] in
      let calls := calls ++ [PingContext] in
      match Ping_err w with
      | Some err => deferred_Close (None, Some err) calls
      | None =>
          let calls := calls ++ [ExecContext_createTableSQL] in
          match Exec_err w with
          | Some err => deferred_Close (None, Some err) calls
          | None =>
              let calls := calls ++ [os_Hostname] in
              let hostname :=
                match Hostname_res w with
                | inl h => h
                | inr _ => "unknown"
                end in
              let calls := calls ++
                [InfoContext "mysql client initialized successfully" hostname] in
              deferred_Close (Some {| hostname := hostname |}, None) calls
          end
      end
  end.

End querylog.

(** ** The caller of the notifier *)

(** What [processNotifications] reads of its [dnsContext]: the result of
    the filter ([None] is [nil]), the client address as
    [dctx.proxyCtx.Addr.Addr().String()] renders it, and the client ID. *)
Record dnsContext : Type := {
  result : option querylog.FilteringResult;
  proxyCtx_Addr : string;
  clientID : string
}.

(** [processNotifications], on the notifier of the server.  The clock is
    read three times: in each limiter and for the timestamp of the event.
    The result is the notifier after the call and the event handed to
    [SendAsync], if any. *)
Definition processNotifications (n : PushoverNotifier) (dctx : dnsContext)
    (host : string) (nowGlobal nowDomain nowEvent : time.Time) :
    PushoverNotifier * option NotificationEvent :=
  match result dctx with
  | None => (n, None)
  | Some result =>
      match querylog.Rules result with
      | [] => (n, None)
      | rule :: _ =>
          let '((ok, reason), n) := ShouldNotify n host nowGlobal nowDomain in
          if negb ok then (n, None)
          else
            let event := {|
              Domain := host;
              RuleText := querylog.Text rule;
              Reason := querylog.Reason result;
              ClientIP := proxyCtx_Addr dctx;
              ClientID := clientID dctx;
              Timestamp := nowEvent
            |} in
            (n, Some event)
      end
  end.

(** ** The migration of the configuration *)

Module configmigrate.

(** A value of a [yobj], which is [map[string]any]. *)
#[warnings="-register-all"]
Inductive yval : Type :=
| YBool (b : bool)
| YInt (z : Z)
| YStr (s : string)
| YObj (m : gmap string yval).

(** [migrateTo34]: the object after the call and the error returned. *)
Definition migrateTo34 (diskConf : gmap string yval) :
    gmap string yval * option error :=
  let diskConf := <["schema_version" := YInt 34]> diskConf in
  let diskConf :=
    <["notifications" :=
        YObj {[ "pushover" :=
          YObj {[ "enabled" := YBool false;
                  "app_token" := YStr "";
                  "user_key" := YStr "";
                  "rate_limit_per_5min" := YInt 1;
                  "global_rate_limit_per_min" := YInt 1;
                  "priority" := YInt 0;
                  "sound" := YStr "" ]} ]}]> diskConf in
  (diskConf, None).

End configmigrate.

(** ** Vocabulary of the statements *)

(** [suffix] ends [s] (Go's [strings.HasSuffix]). *)
Definition HasSuffix (s suffix : string) : Prop := ∃ p, s = p +:+ suffix.

(** [substr] occurs in [s] (Go's [strings.Contains]). *)
Definition Contains (s substr : string) : Prop := ∃ p q, s = p +:+ substr +:+ q.

(** The global gate is closed at the clock reading [now]: the global
    limiter answers [false]. *)
Definition global_denies (n : PushoverNotifier) (now : time.Time) : Prop :=
  (globalRateLimit.shouldNotify (globalRateLimit n) now).1 = false.

(** [n'] is [n] without some of the domain records older than [c]. *)
Definition pruned (c : time.Time) (n n' : PushoverNotifier) : Prop :=
  client n' = client n ∧ config n' = config n ∧
  globalRateLimit n' = globalRateLimit n ∧
  domainRateLimit.interval (domainRateLimit n') =
    domainRateLimit.interval (domainRateLimit n) ∧
  ∀ d, domainRateLimit.lastNotified (domainRateLimit n') !! d =
         domainRateLimit.lastNotified (domainRateLimit n) !! d ∨
       (domainRateLimit.lastNotified (domainRateLimit n') !! d = None ∧
        ∃ t0, domainRateLimit.lastNotified (domainRateLimit n) !! d = Some t0 ∧
              t0 < c).

(** ** Sample data, to run the definitions on *)

(** One assignment of the four constants of [filtering.Reason]. *)
#[export] Instance sample_Consts : filtering.Consts := {|
  filtering.FilteredBlockList := 3;
  filtering.NotFilteredAllowList := 1;
  filtering.Rewritten := 9;
  filtering.RewrittenRule := 11;
  filtering.Consts_NoDup :=
    ltac:(apply NoDup_ListNoDup; repeat (constructor; [simpl; lia|]); constructor)
|}.

(** Noon of 1 January 2026 (UTC), in nanoseconds after the zero [Time]. *)
Definition sample_t0 : time.Time := 63902865600 * time.Second.

Definition sample_config : PushoverConfig := {|
  AppToken := "app"; UserKey := "user"; Sound := "";
  RateLimitPer5Min := 1; GlobalRateLimitPerMin := 1; Priority := 0
|}.

(** The notifier of [sample_config], as [NewPushoverNotifier] makes it. *)
Definition sample_notifier : PushoverNotifier := {|
  client := {| http.Timeout := 10 * time.Second |};
  domainRateLimit := domainRateLimit.mk ∅ (5 * time.Minute);
  globalRateLimit := globalRateLimit.mk time.zero time.Minute;
  config := sample_config
|}.

Definition sample_event : NotificationEvent := {|
  Domain := "a.com"; RuleText := "||a.com^"; ClientIP := "192.0.2.7";
  ClientID := "laptop"; Reason := 3; Timestamp := sample_t0
|}.

(** A formatter and three networks: one answers every request with status
    200, one with status 204, one with status 500. *)
Definition sample_Format (t0 : time.Time) (layout : string) : string :=
  "2026-01-01T12:00:00Z".

Definition sample_Do (status : Z) (c : http.Client) (req : http.Request) :
    http.Response + error :=
  inl {| http.StatusCode := status |}.

(** An allowlisted query: its result is not filtered, and still has the
    rule that matched and a service name. *)
Definition sample_entry : querylog.logEntry := {|
  querylog.Time := sample_t0;
  querylog.QHost := "a.com"; querylog.QType := "A"; querylog.QClass := "IN";
  querylog.ReqECS := ""; querylog.ClientID := "laptop";
  querylog.ClientProto := ""; querylog.Upstream := "";
  querylog.Answer := []; querylog.OrigAnswer := [];
  querylog.IP := [Byte.xc0; Byte.x00; Byte.x02; Byte.x07];
  querylog.Result := {|
    querylog.IsFiltered := false;
    querylog.Reason := 1;
    querylog.Rules := [ {| querylog.Text := "@@||a.com^" |} ];
    querylog.ServiceName := "svc"
  |};
  querylog.Elapsed := 1500000;
  querylog.Cached := false; querylog.AuthenticatedData := false
|}.

Definition sample_IP_String (ip : list Byte.byte) : string := "192.0.2.7".

Definition sample_Marshal (res : querylog.FilteringResult) : string + error :=
  inl "{}".

(** * Properties *)

(** ** Durations and instants *)

Lemma Minute_ns : time.Minute = 60000000000.
Proof. reflexivity. Qed.

(** Linear arithmetic over durations given in minutes and over the bounds of
    [int64]. *)
Ltac duration_lia :=
  simpl; rewrite ?Minute_ns in *;
  unfold time.minDuration, time.maxDuration in *; lia.

Lemma wrap64_small (x : Z) :
  time.minDuration ≤ x ≤ time.maxDuration → time.wrap64 x = x.
Proof.
  unfold time.wrap64, time.minDuration, time.maxDuration. intros Hx.
  rewrite Z.mod_small; lia.
Qed.

(** The saturation of [Sub] is invisible to a comparison with a duration
    other than the least one. *)
Lemma Sub_ltb (now last : time.Time) (i : time.Duration) :
  time.minDuration < i ≤ time.maxDuration →
  (time.Sub now last <? i) = (now - last <? i).
Proof.
  intros Hi. unfold time.Sub.
  destruct (Z.ltb_spec (now - last) time.minDuration);
    [| destruct (Z.ltb_spec time.maxDuration (now - last))];
    destruct (Z.ltb_spec (now - last) i); try reflexivity;
    repeat match goal with |- (_ <? _) = _ => destruct (Z.ltb_spec0 _ _) end;
    try reflexivity; lia.
Qed.

(** A quotient of a duration between 0 and [a] by a rate above 1. *)
Lemma quot_rate (a r : Z) :
  0 ≤ a ≤ time.maxDuration → 1 < r →
  time.div a r = Some (a ÷ r) ∧ 0 ≤ a ÷ r ≤ a ∧
  r * (a ÷ r) ≤ a < r * (a ÷ r + 1).
Proof.
  intros Ha Hr. unfold time.div.
  assert (Hq : a ÷ r = a / r) by (apply Z.quot_div_nonneg; lia).
  assert (Hb : 0 ≤ a / r ≤ a).
  { split; [apply Z.div_pos; lia|]. apply Z.div_le_upper_bound; nia. }
  assert (Hm := Z.mul_div_le a r ltac:(lia)).
  assert (Hs := Z.mul_succ_div_gt a r ltac:(lia)).
  destruct (Z.eqb_spec r 0); [lia|].
  rewrite Hq, wrap64_small; [| unfold time.minDuration, time.maxDuration in *; lia].
  repeat split; lia.
Qed.

(** ** The constructors *)

Lemma newDomainRateLimit_eq (r : Z) :
  newDomainRateLimit r =
  Some (domainRateLimit.mk ∅
          (if 1 <? r then (5 * time.Minute) ÷ r else 5 * time.Minute)).
Proof.
  unfold newDomainRateLimit. destruct (Z.ltb_spec 1 r); [|reflexivity].
  destruct (quot_rate (5 * time.Minute) r) as [-> _]; [|lia|reflexivity].
  duration_lia.
Qed.

Lemma newGlobalRateLimit_eq (g : Z) :
  newGlobalRateLimit g =
  Some (globalRateLimit.mk time.zero
          (if 1 <? g then time.Minute ÷ g else time.Minute)).
Proof.
  unfold newGlobalRateLimit. destruct (Z.ltb_spec 1 g); [|reflexivity].
  destruct (quot_rate time.Minute g) as [-> _]; [|lia|reflexivity].
  duration_lia.
Qed.

(** The interval of a limiter that a constructor made lies between 0 and the
    base interval. *)
Lemma newDomainRateLimit_interval (r : Z) (d : domainRateLimit.t) :
  newDomainRateLimit r = Some d →
  0 ≤ domainRateLimit.interval d ≤ 5 * time.Minute.
Proof.
  rewrite newDomainRateLimit_eq. intros [= <-]. simpl.
  destruct (Z.ltb_spec 1 r); [|rewrite Minute_ns; lia].
  destruct (quot_rate (5 * time.Minute) r) as (_ & ? & _); [|lia|lia].
  duration_lia.
Qed.

Lemma newGlobalRateLimit_interval (g : Z) (l : globalRateLimit.t) :
  newGlobalRateLimit g = Some l →
  0 ≤ globalRateLimit.interval l ≤ time.Minute.
Proof.
  rewrite newGlobalRateLimit_eq. intros [= <-]. simpl.
  destruct (Z.ltb_spec 1 g); [|rewrite Minute_ns; lia].
  destruct (quot_rate time.Minute g) as (_ & ? & _); [|lia|lia].
  duration_lia.
Qed.

(** C3: the interval of the domain limiter is 5 minutes divided by the rate
    [r] when [r > 1] and 5 minutes otherwise, the interval of the global
    limiter is 1 minute divided by the rate [g] when [g > 1] and 1 minute
    otherwise.  The division is the one of durations: it counts whole
    nanoseconds, so the rate times the interval is the base interval or less,
    by less than [r] nanoseconds.  Rates 0 and 1 give exactly 5 minutes, rate
    5 exactly 1 minute. *)
Theorem limiter_intervals (r g : Z) :
  (∃ d, newDomainRateLimit r = Some d ∧
        domainRateLimit.interval d =
          (if 1 <? r then (5 * time.Minute) ÷ r else 5 * time.Minute) ∧
        (if 1 <? r
         then r * domainRateLimit.interval d ≤ 5 * time.Minute
                < r * domainRateLimit.interval d + r
         else True)) ∧
  (∃ l, newGlobalRateLimit g = Some l ∧
        globalRateLimit.interval l =
          (if 1 <? g then time.Minute ÷ g else time.Minute) ∧
        (if 1 <? g
         then g * globalRateLimit.interval l ≤ time.Minute
                < g * globalRateLimit.interval l + g
         else True)) ∧
  domainRateLimit.interval <$> newDomainRateLimit 0 = Some (5 * time.Minute) ∧
  domainRateLimit.interval <$> newDomainRateLimit 1 = Some (5 * time.Minute) ∧
  domainRateLimit.interval <$> newDomainRateLimit 5 = Some time.Minute.
Proof.
  split; [|split; [|repeat split]].
  - eexists. split; [apply newDomainRateLimit_eq|]. split; [reflexivity|]. simpl.
    destruct (Z.ltb_spec 1 r); [|exact I].
    destruct (quot_rate (5 * time.Minute) r) as (_ & _ & ?); [|lia|lia].
    duration_lia.
  - eexists. split; [apply newGlobalRateLimit_eq|]. split; [reflexivity|]. simpl.
    destruct (Z.ltb_spec 1 g); [|exact I].
    destruct (quot_rate time.Minute g) as (_ & _ & ?); [|lia|lia].
    duration_lia.
Qed.

(** C9, counterexample: a rate above the base interval counted in
    nanoseconds passes the guard [> 1], and the quotient of the division is
    0: the constructors do make limiters with a zero interval. *)
Lemma zero_interval_constructed :
  newDomainRateLimit 300000000001 = Some (domainRateLimit.mk ∅ 0) ∧
  newGlobalRateLimit 60000000001 = Some (globalRateLimit.mk time.zero 0).
Proof. split; reflexivity. Qed.

(** C9, amended: for every integer rate the constructors return a limiter
    (the division never has a zero divisor, so it does not panic) whose
    interval is never negative and never above the base interval; for every
    rate [<= 1], zero and the negative ones included, the interval is the
    base interval itself, exactly 5 minutes and exactly 1 minute; and the
    interval is zero exactly when the rate exceeds the base interval counted
    in nanoseconds. *)
Theorem constructors_guarded (r g : Z) :
  (∃ d, newDomainRateLimit r = Some d ∧
        0 ≤ domainRateLimit.interval d ≤ 5 * time.Minute ∧
        (r ≤ 1 → domainRateLimit.interval d = 5 * time.Minute) ∧
        (domainRateLimit.interval d = 0 ↔ 5 * time.Minute < r)) ∧
  (∃ l, newGlobalRateLimit g = Some l ∧
        0 ≤ globalRateLimit.interval l ≤ time.Minute ∧
        (g ≤ 1 → globalRateLimit.interval l = time.Minute) ∧
        (globalRateLimit.interval l = 0 ↔ time.Minute < g)).
Proof.
  split.
  - eexists. split; [apply newDomainRateLimit_eq|]. simpl.
    destruct (Z.ltb_spec 1 r) as [Hr|Hr].
    + destruct (quot_rate (5 * time.Minute) r) as (_ & Hq & Hm); [|lia|].
      { duration_lia. }
      rewrite Minute_ns in *. repeat split; try lia; intros; nia.
    + rewrite Minute_ns. repeat split; lia.
  - eexists. split; [apply newGlobalRateLimit_eq|]. simpl.
    destruct (Z.ltb_spec 1 g) as [Hg|Hg].
    + destruct (quot_rate time.Minute g) as (_ & Hq & Hm); [|lia|].
      { duration_lia. }
      rewrite Minute_ns in *. repeat split; try lia; intros; nia.
    + rewrite Minute_ns. repeat split; lia.
Qed.

(** C9 at work: a negative rate and the rate zero. *)
Lemma constructors_guarded_witness :
  domainRateLimit.interval <$> newDomainRateLimit (-3) = Some (5 * time.Minute) ∧
  globalRateLimit.interval <$> newGlobalRateLimit 0 = Some time.Minute.
Proof.
  destruct (constructors_guarded (-3) 0)
    as [(d & Hd & _ & Hle & _) (l & Hl & _ & Hle' & _)].
  rewrite Hd, Hl. simpl. rewrite Hle, Hle' by lia. split; reflexivity.
Defined.

(** ** The per-domain limiter *)

Lemma domain_shouldNotify_interval (r : domainRateLimit.t) (d : string)
    (now : time.Time) :
  domainRateLimit.interval (domainRateLimit.shouldNotify r d now).2 =
  domainRateLimit.interval r.
Proof.
  unfold domainRateLimit.shouldNotify.
  destruct (domainRateLimit.lastNotified r !! d); [|reflexivity].
  destruct (_ <? _); reflexivity.
Qed.

(** C2: [shouldNotify] on domain [d] at the clock reading [now] returns
    [true] and stores [now] for [d] if and only if [d] has no record or
    [now] minus the stored instant is at least the interval; otherwise it
    returns [false] and the limiter, the instant stored for [d] and every
    other entry, stays as it is.  The interval is any duration but the least
    one. *)
Theorem domain_shouldNotify_spec (r : domainRateLimit.t) (d : string)
    (now : time.Time) :
  time.minDuration < domainRateLimit.interval r ≤ time.maxDuration →
  let admitted :=
    domainRateLimit.lastNotified r !! d = None ∨
    ∃ last, domainRateLimit.lastNotified r !! d = Some last ∧
            domainRateLimit.interval r ≤ now - last in
  ((domainRateLimit.shouldNotify r d now).1 = true ↔ admitted) ∧
  (admitted →
   domainRateLimit.shouldNotify r d now =
   (true, domainRateLimit.mk (<[d := now]> (domainRateLimit.lastNotified r))
                             (domainRateLimit.interval r))) ∧
  (¬ admitted → domainRateLimit.shouldNotify r d now = (false, r)).
Proof.
  intros Hi admitted. subst admitted. unfold domainRateLimit.shouldNotify.
  destruct (domainRateLimit.lastNotified r !! d) as [last|] eqn:Hd.
  - rewrite Sub_ltb by exact Hi.
    destruct (Z.ltb_spec (now - last) (domainRateLimit.interval r)); simpl.
    + split; [|split]; [split| |]; try discriminate; try reflexivity.
      * intros [[=]|(l & [= <-] & ?)]. lia.
      * intros [[=]|(l & [= <-] & ?)]. lia.
    + split; [|split]; [split| |]; try reflexivity.
      * intros _. right. eauto.
      * intros Hn. destruct Hn. right. eauto.
  - simpl. split; [|split]; [split| |]; try reflexivity.
    + intros _. left. reflexivity.
    + intros Hn. destruct Hn. left. reflexivity.
Qed.

(** C2 at work: "a.com" was admitted at instant 0 and asks again exactly one
    interval later. *)
Lemma domain_shouldNotify_spec_witness :
  domainRateLimit.shouldNotify
    (domainRateLimit.mk {[ "a.com" := 0 ]} (5 * time.Minute)) "a.com"
    (5 * time.Minute) =
  (true, domainRateLimit.mk (<[ "a.com" := 5 * time.Minute ]> {[ "a.com" := 0 ]})
                            (5 * time.Minute)).
Proof.
  refine (proj1 (proj2 (domain_shouldNotify_spec
           (domainRateLimit.mk {[ "a.com" := 0 ]} (5 * time.Minute))
           "a.com" (5 * time.Minute) _)) _).
  - duration_lia.
  - right. exists 0. split; [reflexivity|]. simpl. lia.
Defined.

(** What the loop of [cleanup] leaves under a key, when it ranges over the
    entries of [m] and deletes from [m0]. *)
Lemma cleanup_fold_lookup (cutoff : time.Time) (m0 m : gmap string time.Time)
    (d : string) :
  map_fold (domainRateLimit.cleanup_entry cutoff) m0 m !! d =
  match m !! d with
  | Some t0 => if time.Before t0 cutoff then None else m0 !! d
  | None => m0 !! d
  end.
Proof.
  revert d.
  apply (map_fold_weak_ind (λ acc m, ∀ d,
    acc !! d = match m !! d with
               | Some t0 => if time.Before t0 cutoff then None else m0 !! d
               | None => m0 !! d
               end)).
  - intros d. rewrite lookup_empty. reflexivity.
  - intros i x m' acc Hi IH d. unfold domainRateLimit.cleanup_entry.
    destruct (decide (i = d)) as [->|Hne].
    + rewrite lookup_insert_eq.
      destruct (time.Before x cutoff).
      * apply lookup_delete_eq.
      * rewrite IH, Hi. reflexivity.
    + rewrite lookup_insert_ne by exact Hne.
      destruct (time.Before x cutoff).
      * rewrite lookup_delete_ne by exact Hne. apply IH.
      * apply IH.
Qed.

(** The cutoff of [cleanup] is the clock reading minus twice the interval,
    when that product is a duration. *)
Lemma cleanup_cutoff (i : time.Duration) (now : time.Time) :
  time.minDuration ≤ - (2 * i) ≤ time.maxDuration →
  time.Add now (time.mul (time.neg i) 2) = now - 2 * i.
Proof.
  intros Hi. unfold time.Add, time.mul, time.neg.
  rewrite (wrap64_small (- i)), wrap64_small;
    unfold time.minDuration, time.maxDuration in *; lia.
Qed.

(** C4: [cleanup] at the clock reading [now] deletes exactly the entries
    whose instant [t0] has [now - t0] strictly above twice the interval,
    which are the entries with [t0] before [now] minus twice the interval;
    every entry of age at most twice the interval stays, with its instant.
    So the map after [cleanup] is the map before, filtered by the age.
    Twice the interval is taken to be a duration, as it is for every
    interval a constructor computes. *)
Theorem cleanup_spec (r : domainRateLimit.t) (now : time.Time) :
  time.minDuration ≤ - (2 * domainRateLimit.interval r) ≤ time.maxDuration →
  let m := domainRateLimit.lastNotified r in
  let m' := domainRateLimit.lastNotified (domainRateLimit.cleanup r now) in
  let i := domainRateLimit.interval r in
  (∀ d t0, m !! d = Some t0 → 2 * i < now - t0 → m' !! d = None) ∧
  (∀ d t0, m !! d = Some t0 → now - t0 ≤ 2 * i → m' !! d = Some t0) ∧
  (∀ d, m !! d = None → m' !! d = None) ∧
  (∀ t0, 2 * i < now - t0 ↔ t0 < now - 2 * i) ∧
  m' = filter (λ e, now - e.2 ≤ 2 * i) m ∧
  domainRateLimit.interval (domainRateLimit.cleanup r now) = i.
Proof.
  intros Hi m m' i.
  assert (Hl : ∀ d, m' !! d =
            match m !! d with
            | Some t0 => if 2 * i <? now - t0 then None else Some t0
            | None => None
            end).
  { intros d. subst m' m i. unfold domainRateLimit.cleanup. simpl.
    rewrite cleanup_fold_lookup, cleanup_cutoff by exact Hi.
    destruct (domainRateLimit.lastNotified r !! d) as [t0|]; [|reflexivity].
    unfold time.Before.
    destruct (Z.ltb_spec t0 (now - 2 * domainRateLimit.interval r));
      destruct (Z.ltb_spec (2 * domainRateLimit.interval r) (now - t0));
      try reflexivity; lia. }
  split; [|split; [|split; [|split; [|split; [|reflexivity]]]]].
  - intros d t0 Hd Hage. rewrite Hl, Hd.
    destruct (Z.ltb_spec (2 * i) (now - t0)); [reflexivity|lia].
  - intros d t0 Hd Hage. rewrite Hl, Hd.
    destruct (Z.ltb_spec (2 * i) (now - t0)); [lia|reflexivity].
  - intros d Hd. rewrite Hl, Hd. reflexivity.
  - intros t0. lia.
  - apply map_eq. intros d. rewrite Hl. apply option_eq. intros t0.
    rewrite map_lookup_filter_Some. simpl.
    destruct (m !! d) as [t1|]; [|split; [discriminate|intros [[=] _]]].
    destruct (Z.ltb_spec (2 * i) (now - t1)).
    + split; [discriminate|]. intros [[= ->] ?]. lia.
    + split; [intros [= ->]; split; [reflexivity|lia]|].
      intros [[= ->] _]. reflexivity.
Qed.

(** C4 at work: with an interval of 5 minutes and the clock at 20 minutes,
    the entry of instant 0 (age 20 minutes) goes and the entry of instant 10
    minutes (age exactly twice the interval) stays. *)
Lemma cleanup_spec_witness :
  let r := domainRateLimit.mk
             {[ "old.com" := 0; "edge.com" := 10 * time.Minute ]}
             (5 * time.Minute) in
  let m' := domainRateLimit.lastNotified
              (domainRateLimit.cleanup r (20 * time.Minute)) in
  m' !! "old.com" = None ∧ m' !! "edge.com" = Some (10 * time.Minute).
Proof.
  intros r m'.
  assert (Hr : time.minDuration ≤ - (2 * domainRateLimit.interval r)
               ≤ time.maxDuration).
  { duration_lia. }
  destruct (cleanup_spec r (20 * time.Minute) Hr) as (Hgo & Hstay & _).
  split.
  - apply (Hgo "old.com" 0); [reflexivity|]. simpl. rewrite Minute_ns. lia.
  - apply (Hstay "edge.com" (10 * time.Minute)); [reflexivity|].
    simpl. rewrite Minute_ns. lia.
Defined.

(** ** The admission decision *)

(** A denial of the global limiter leaves the global limiter as it was. *)
Lemma global_shouldNotify_denied (g : globalRateLimit.t) (now : time.Time) :
  (globalRateLimit.shouldNotify g now).1 = false →
  globalRateLimit.shouldNotify g now = (false, g).
Proof.
  unfold globalRateLimit.shouldNotify.
  destruct (_ <? _); [reflexivity|discriminate].
Qed.

(** When the global limiter admits, it records its clock reading whatever
    the domain limiter says next, and the answer is the domain limiter's. *)
Lemma ShouldNotify_global_admits (n : PushoverNotifier) (domain : string)
    (nowGlobal nowDomain : time.Time) :
  (globalRateLimit.shouldNotify (globalRateLimit n) nowGlobal).1 = true →
  ShouldNotify n domain nowGlobal nowDomain =
  (let '(ok, d) :=
     domainRateLimit.shouldNotify (domainRateLimit n) domain nowDomain in
   ((ok, if ok then "" else "domain"),
    {| client := client n; domainRateLimit := d;
       globalRateLimit :=
         globalRateLimit.mk nowGlobal (globalRateLimit.interval (globalRateLimit n));
       config := config n |})).
Proof.
  unfold ShouldNotify, globalRateLimit.shouldNotify.
  destruct (_ <? _); [discriminate|]. intros _. simpl.
  destruct (domainRateLimit.shouldNotify _ _ _) as [[] d]; reflexivity.
Qed.

(** C1: [ShouldNotify] asks the global limiter first, and when that one
    denies, the answer is [(false, "global")] and the notifier is what it
    was: the domain limiter is not run, so its map, the instant stored for
    the domain included, is untouched.  Hence over any run of requests that
    all meet a closed global gate, every answer is [(false, "global")] and
    no domain's window moves. *)
Theorem ShouldNotify_global_first (n : PushoverNotifier) :
  (∀ domain nowGlobal nowDomain,
     global_denies n nowGlobal →
     ShouldNotify n domain nowGlobal nowDomain = ((false, "global"), n)) ∧
  (∀ reqs,
     Forall (λ req, global_denies n req.1.2) reqs →
     ShouldNotify_all n reqs = (((λ _, (false, "global")) <$> reqs), n)).
Proof.
  assert (H1 : ∀ domain nowGlobal nowDomain,
     global_denies n nowGlobal →
     ShouldNotify n domain nowGlobal nowDomain = ((false, "global"), n)).
  { intros domain nowGlobal nowDomain Hg. unfold ShouldNotify.
    rewrite (global_shouldNotify_denied _ _ Hg). simpl.
    destruct n; reflexivity. }
  split; [exact H1|].
  intros reqs Hreqs. induction Hreqs as [|[[domain nowGlobal] nowDomain] reqs Hg _ IH].
  - reflexivity.
  - simpl in *. rewrite (H1 _ _ _ Hg), IH. reflexivity.
Qed.

(** C1 at work: the sample notifier has admitted "a.com" at noon; one
    second later the global gate is closed, and the request for "a.com"
    leaves its window where it was. *)
Lemma ShouldNotify_global_first_witness :
  let n1 := (ShouldNotify sample_notifier "a.com" sample_t0 sample_t0).2 in
  domainRateLimit.lastNotified (domainRateLimit n1) !! "a.com" = Some sample_t0 ∧
  ShouldNotify n1 "a.com" (sample_t0 + time.Second) (sample_t0 + time.Second) =
  ((false, "global"), n1).
Proof.
  intros n1. split; [reflexivity|].
  apply (proj1 (ShouldNotify_global_first n1)). reflexivity.
Defined.

(** Scenario A of the specification: rates 1 per 5 minutes and 1 per
    minute. *)
Example scenario_A :
  (ShouldNotify_all sample_notifier
     [ ("a.com", sample_t0, sample_t0);
       ("a.com", sample_t0 + time.Second, sample_t0 + time.Second);
       ("b.com", sample_t0 + 30 * time.Second, sample_t0 + 30 * time.Second);
       ("b.com", sample_t0 + 61 * time.Second, sample_t0 + 61 * time.Second) ]).1 =
  [ (true, ""); (false, "global"); (false, "global"); (true, "") ].
Proof. reflexivity. Qed.

(** The sample notifier is the one [NewPushoverNotifier] makes. *)
Example sample_notifier_new :
  NewPushoverNotifier sample_config = Some sample_notifier.
Proof. reflexivity. Qed.

(** ** Titles and bodies *)

Lemma append_assoc (s1 s2 s3 : string) :
  (s1 +:+ s2) +:+ s3 = s1 +:+ (s2 +:+ s3).
Proof.
  induction s1 as [|a s1 IH]; [reflexivity|].
  change (String a ((s1 +:+ s2) +:+ s3) = String a (s1 +:+ s2 +:+ s3)).
  rewrite IH. reflexivity.
Qed.

Lemma append_empty_r (s : string) : s +:+ "" = s.
Proof.
  induction s as [|a s IH]; [reflexivity|].
  change (String a (s +:+ "") = String a s). rewrite IH. reflexivity.
Qed.

Lemma Contains_middle (p s q : string) : Contains (p +:+ s +:+ q) s.
Proof. exists p, q. reflexivity. Qed.

Lemma Contains_end (p s : string) : Contains (p +:+ s) s.
Proof. exists p, "". rewrite append_empty_r. reflexivity. Qed.

(** The four constants are pairwise different. *)
Lemma Consts_distinct `{filtering.Consts} :
  filtering.FilteredBlockList ≠ filtering.NotFilteredAllowList ∧
  filtering.FilteredBlockList ≠ filtering.Rewritten ∧
  filtering.FilteredBlockList ≠ filtering.RewrittenRule ∧
  filtering.NotFilteredAllowList ≠ filtering.Rewritten ∧
  filtering.NotFilteredAllowList ≠ filtering.RewrittenRule.
Proof.
  pose proof filtering.Consts_NoDup as Hnd.
  apply NoDup_cons in Hnd as [Hb Hnd]. apply NoDup_cons in Hnd as [Ha _].
  rewrite !not_elem_of_cons in Hb. rewrite !not_elem_of_cons in Ha.
  destruct Hb as (? & ? & ? & _), Ha as (? & ? & _).
  repeat split; assumption.
Qed.

(** C6: the title ends with "Blocked" for the blocklist reason, with
    "Allowed" for the allowlist reason, with "Rewritten" for each of the two
    rewrite reasons, and with "Custom Rule Match" for every other reason;
    the full titles are given with the endings. *)
Theorem formatTitle_cases `{filtering.Consts} (reason : filtering.Reason) :
  (reason = filtering.FilteredBlockList →
   formatTitle reason = "AdGuard: Domain Blocked" ∧
   HasSuffix (formatTitle reason) "Blocked") ∧
  (reason = filtering.NotFilteredAllowList →
   formatTitle reason = "AdGuard: Domain Allowed" ∧
   HasSuffix (formatTitle reason) "Allowed") ∧
  (reason = filtering.Rewritten ∨ reason = filtering.RewrittenRule →
   formatTitle reason = "AdGuard: Domain Rewritten" ∧
   HasSuffix (formatTitle reason) "Rewritten") ∧
  (reason ∉ [filtering.FilteredBlockList; filtering.NotFilteredAllowList;
             filtering.Rewritten; filtering.RewrittenRule] →
   formatTitle reason = "AdGuard: Custom Rule Match" ∧
   HasSuffix (formatTitle reason) "Custom Rule Match").
Proof.
  destruct Consts_distinct as (Hba & Hbr & Hbu & Har & Hau).
  unfold formatTitle.
  split; [|split; [|split]].
  - intros ->. rewrite Z.eqb_refl.
    split; [reflexivity|]. exists "AdGuard: Domain ". reflexivity.
  - intros ->.
    destruct (Z.eqb_spec filtering.NotFilteredAllowList filtering.FilteredBlockList);
      [congruence|].
    rewrite Z.eqb_refl.
    split; [reflexivity|]. exists "AdGuard: Domain ". reflexivity.
  - intros Hr.
    destruct (Z.eqb_spec reason filtering.FilteredBlockList);
      [destruct Hr; congruence|].
    destruct (Z.eqb_spec reason filtering.NotFilteredAllowList);
      [destruct Hr; congruence|].
    replace ((reason =? filtering.Rewritten) || (reason =? filtering.RewrittenRule))
      with true.
    + split; [reflexivity|]. exists "AdGuard: Domain ". reflexivity.
    + symmetry. apply orb_true_iff. rewrite !Z.eqb_eq. exact Hr.
  - rewrite !not_elem_of_cons. intros (Hb & Ha & Hr & Hu & _).
    destruct (Z.eqb_spec reason filtering.FilteredBlockList); [congruence|].
    destruct (Z.eqb_spec reason filtering.NotFilteredAllowList); [congruence|].
    destruct (Z.eqb_spec reason filtering.Rewritten); [congruence|].
    destruct (Z.eqb_spec reason filtering.RewrittenRule); [congruence|].
    simpl. split; [reflexivity|]. exists "AdGuard: ". reflexivity.
Qed.

(** C6 at work, on the sample constants: reason 3 is the blocklist one,
    reason 7 is none of the four. *)
Lemma formatTitle_cases_witness :
  formatTitle 3 = "AdGuard: Domain Blocked" ∧
  formatTitle 7 = "AdGuard: Custom Rule Match".
Proof.
  split.
  - apply (proj1 (formatTitle_cases 3)). reflexivity.
  - apply (proj2 (proj2 (proj2 (formatTitle_cases 7)))).
    rewrite !not_elem_of_cons. simpl.
    repeat split; try discriminate. apply not_elem_of_nil.
Defined.

(** C7: with a client ID the body holds the descriptor "<id> (<ip>)", without
    one it holds the IP alone on the client line; in both cases it holds the
    domain and the timestamp in the layout RFC3339.  The body is given in
    full for each case. *)
Theorem formatMessage_spec (Format : time.Time → string → string)
    (event : NotificationEvent) :
  let body := formatMessage Format event in
  let stamp := Format (Timestamp event) time.RFC3339 in
  (ClientID event ≠ "" →
   body = "Domain: " +:+ Domain event +:+ LF +:+
          "Client: " +:+ ClientID event +:+ " (" +:+ ClientIP event +:+ ")" +:+ LF +:+
          "Time: " +:+ stamp ∧
   Contains body (ClientID event +:+ " (" +:+ ClientIP event +:+ ")")) ∧
  (ClientID event = "" →
   body = "Domain: " +:+ Domain event +:+ LF +:+
          "Client: " +:+ ClientIP event +:+ LF +:+
          "Time: " +:+ stamp) ∧
  Contains body (ClientIP event) ∧
  Contains body (Domain event) ∧
  Contains body stamp.
Proof.
  intros body stamp. subst body stamp. unfold formatMessage.
  destruct (String.eqb_spec (ClientID event) "") as [He|He]; simpl negb; cbv iota.
  - split; [intros Hne; destruct (Hne He)|].
    split; [intros _; reflexivity|].
    split; [|split].
    + rewrite <- (append_assoc "Domain: "), <- (append_assoc _ LF),
        <- (append_assoc _ "Client: ").
      apply Contains_middle.
    + apply Contains_middle.
    + rewrite <- (append_assoc "Domain: "), <- (append_assoc _ LF),
        <- (append_assoc _ "Client: "), <- (append_assoc _ (ClientIP event)),
        <- (append_assoc _ LF), <- (append_assoc _ "Time: ").
      apply Contains_end.
  - split; [intros _; split|].
    + rewrite !append_assoc. reflexivity.
    + rewrite <- (append_assoc "Domain: "), <- (append_assoc _ LF),
        <- (append_assoc _ "Client: ").
      apply Contains_middle.
    + split; [intros Hid; destruct (He Hid)|].
      split; [|split].
      * rewrite !append_assoc.
        rewrite <- (append_assoc "Domain: "), <- (append_assoc _ LF),
          <- (append_assoc _ "Client: "), <- (append_assoc _ (ClientID event)),
          <- (append_assoc _ " (").
        apply Contains_middle.
      * apply Contains_middle.
      * rewrite !append_assoc.
        rewrite <- (append_assoc "Domain: "), <- (append_assoc _ LF),
          <- (append_assoc _ "Client: "), <- (append_assoc _ (ClientID event)),
          <- (append_assoc _ " ("), <- (append_assoc _ (ClientIP event)),
          <- (append_assoc _ ")"), <- (append_assoc _ LF),
          <- (append_assoc _ "Time: ").
        apply Contains_end.
Qed.

(** C7 at work: the sample event has the client ID "laptop". *)
Lemma formatMessage_spec_witness :
  Contains (formatMessage sample_Format sample_event) "laptop (192.0.2.7)" ∧
  formatMessage sample_Format sample_event =
  "Domain: a.com" +:+ LF +:+ "Client: laptop (192.0.2.7)" +:+ LF +:+
  "Time: 2026-01-01T12:00:00Z".
Proof.
  split.
  - apply (proj1 (formatMessage_spec sample_Format sample_event)). discriminate.
  - apply (proj1 (formatMessage_spec sample_Format sample_event)). discriminate.
Defined.

(** ** The request and its outcome *)

Lemma is_Some_unless {A : Type} (b : bool) (x : A) :
  is_Some (if b then None else Some x) ↔ b = false.
Proof.
  destruct b; split; try discriminate; try reflexivity.
  - intros [? [=]].
  - intros _. eexists. reflexivity.
Qed.

(** The form of the request of [send], key by key. *)
Lemma send_request_body `{filtering.Consts}
    (Format : time.Time → string → string) (n : PushoverNotifier) (ctx : bool)
    (event : NotificationEvent) (req : http.Request) (k : string) :
  send_request Format n ctx event = inl req →
  http.Body req !! k =
  if decide (k = "sound") then
    if String.eqb (Sound (config n)) "" then None else Some [Sound (config n)]
  else if decide (k = "priority") then
    if Priority (config n) =? 0 then None
    else Some [pretty (Priority (config n))]
  else if decide (k = "token") then Some [AppToken (config n)]
  else if decide (k = "user") then Some [UserKey (config n)]
  else if decide (k = "title") then Some [formatTitle (Reason event)]
  else if decide (k = "message") then Some [formatMessage Format event]
  else None.
Proof.
  unfold send_request, http.NewRequestWithContext.
  destruct ctx; [|discriminate]. intros [= <-]. simpl.
  unfold url.Values_Set.
  destruct (String.eqb (Sound (config n)) "");
    destruct (Priority (config n) =? 0); simpl;
    repeat (case_decide; [subst k; vm_compute; reflexivity|]);
    rewrite ?lookup_insert_ne by congruence;
    apply lookup_singleton_ne; congruence.
Qed.

(** The request of [send] is a POST to the Pushover endpoint, declared as a
    form. *)
Lemma send_request_line `{filtering.Consts}
    (Format : time.Time → string → string) (n : PushoverNotifier) (ctx : bool)
    (event : NotificationEvent) (req : http.Request) :
  send_request Format n ctx event = inl req →
  ctx = true ∧ http.Method req = "POST" ∧ http.URL req = pushoverAPIURL ∧
  http.Header req = {[ "Content-Type" := ["application/x-www-form-urlencoded"] ]}.
Proof.
  unfold send_request, http.NewRequestWithContext.
  destruct ctx; [|discriminate]. intros [= <-]. repeat split.
Qed.

(** C8: the form of the POST that [send] builds always has the fields
    token, user, title and message, with the credentials, the title and the
    body as values; it has the field priority if and only if the configured
    priority is not zero, and the field sound if and only if the configured
    sound is not the empty string; it has no other field. *)
Theorem send_form_fields `{filtering.Consts}
    (Format : time.Time → string → string) (n : PushoverNotifier) (ctx : bool)
    (event : NotificationEvent) (req : http.Request) :
  send_request Format n ctx event = inl req →
  http.Method req = "POST" ∧
  http.Body req !! "token" = Some [AppToken (config n)] ∧
  http.Body req !! "user" = Some [UserKey (config n)] ∧
  http.Body req !! "title" = Some [formatTitle (Reason event)] ∧
  http.Body req !! "message" = Some [formatMessage Format event] ∧
  (is_Some (http.Body req !! "priority") ↔ Priority (config n) ≠ 0) ∧
  (Priority (config n) ≠ 0 →
   http.Body req !! "priority" = Some [pretty (Priority (config n))]) ∧
  (is_Some (http.Body req !! "sound") ↔ Sound (config n) ≠ "") ∧
  (Sound (config n) ≠ "" → http.Body req !! "sound" = Some [Sound (config n)]) ∧
  (∀ k, k ∉ [ "token"; "user"; "title"; "message"; "priority"; "sound" ] →
        http.Body req !! k = None).
Proof.
  intros Hreq.
  destruct (send_request_line _ _ _ _ _ Hreq) as (_ & Hm & _).
  pose proof (λ k, send_request_body Format n ctx event req k Hreq) as Hbody.
  split; [exact Hm|].
  do 4 (split; [rewrite Hbody; reflexivity|]).
  split; [|split; [|split; [|split]]].
  - rewrite Hbody. simpl. rewrite is_Some_unless, Z.eqb_neq. reflexivity.
  - intros Hp. apply Z.eqb_neq in Hp. rewrite Hbody. simpl. rewrite Hp. reflexivity.
  - rewrite Hbody. simpl. rewrite is_Some_unless, String.eqb_neq. reflexivity.
  - intros Hs. apply String.eqb_neq in Hs. rewrite Hbody. simpl. rewrite Hs. reflexivity.
  - intros k Hk. rewrite !not_elem_of_cons in Hk.
    destruct Hk as (? & ? & ? & ? & ? & ? & _).
    rewrite Hbody. repeat (case_decide; [congruence|]). reflexivity.
Qed.

(** C8 at work: the sample configuration has priority 0 and no sound. *)
Lemma send_form_fields_witness :
  ∃ req, send_request sample_Format sample_notifier true sample_event = inl req ∧
         http.Body req !! "token" = Some ["app"] ∧
         ¬ is_Some (http.Body req !! "priority") ∧
         ¬ is_Some (http.Body req !! "sound").
Proof.
  eexists. split; [reflexivity|].
  match goal with |- context [http.Body ?r] =>
    pose proof (send_form_fields sample_Format sample_notifier true sample_event
                  r eq_refl) as (_ & Ht & _ & _ & _ & Hp & _ & Hs & _)
  end.
  split; [exact Ht|]. split.
  - intros Hsome. apply Hp in Hsome. apply Hsome. reflexivity.
  - intros Hsome. apply Hs in Hsome. apply Hsome. reflexivity.
Defined.

(** C5, counterexample: the network answers the request of the sample event
    with status 204, which is in the 2xx range, and with no transport-level
    error; [send] returns an error all the same. *)
Lemma send_rejects_204 :
  200 ≤ 204 < 300 ∧
  (∃ req, send_request sample_Format sample_notifier true sample_event = inl req ∧
          sample_Do 204 (client sample_notifier) req =
            inl {| http.StatusCode := 204 |}) ∧
  send sample_Format (sample_Do 204) sample_notifier true sample_event =
    Some "pushover returned status 204".
Proof.
  split; [lia|]. split; [|reflexivity].
  eexists. split; reflexivity.
Qed.

(** C5, amended: [send] returns an error if and only if the request cannot
    be made (a nil context), the transmission suffers a transport-level
    error, or the status code of the response is not 200; it succeeds if and
    only if the request is made and the response to it has status 200.  An
    error for a status names that status. *)
Theorem send_fails_iff `{filtering.Consts}
    (Format : time.Time → string → string)
    (Do : http.Client → http.Request → http.Response + error)
    (n : PushoverNotifier) (ctx : bool) (event : NotificationEvent) :
  (is_Some (send Format Do n ctx event) ↔
   ctx = false ∨
   ∃ req, send_request Format n ctx event = inl req ∧
          ((∃ err, Do (client n) req = inr err) ∨
           (∃ resp, Do (client n) req = inl resp ∧ http.StatusCode resp ≠ 200))) ∧
  (send Format Do n ctx event = None ↔
   ∃ req resp, send_request Format n ctx event = inl req ∧
               Do (client n) req = inl resp ∧ http.StatusCode resp = 200) ∧
  (∀ req resp, send_request Format n ctx event = inl req →
               Do (client n) req = inl resp → http.StatusCode resp ≠ 200 →
               send Format Do n ctx event =
               Some ("pushover returned status " +:+ pretty (http.StatusCode resp))).
Proof.
  unfold send.
  destruct (send_request Format n ctx event) as [req|e] eqn:Hreq.
  - destruct (send_request_line _ _ _ _ _ Hreq) as (-> & _).
    destruct (Do (client n) req) as [resp|e] eqn:HDo.
    + unfold http.StatusOK.
      destruct (Z.eqb_spec (http.StatusCode resp) 200) as [Hs|Hs]; simpl.
      * split; [|split].
        -- split; [intros [? [=]]|].
           intros [[=]|(? & [= <-] & [[? Herr]|(? & Hresp & ?)])]; congruence.
        -- split; [eauto|reflexivity].
        -- intros ? ? [= <-] ? ?. congruence.
      * split; [|split].
        -- split; [|eauto]. intros _. right. eauto 8.
        -- split; [discriminate|]. intros (? & ? & [= <-] & ? & ?). congruence.
        -- intros ? ? [= <-] Hresp _. rewrite HDo in Hresp.
           injection Hresp as <-. reflexivity.
    + split; [|split].
      * split; [|eauto]. intros _. right. eauto 8.
      * split; [discriminate|]. intros (? & ? & [= <-] & ? & ?). congruence.
      * intros ? ? [= <-] ?. congruence.
  - assert (ctx = false) as ->.
    { revert Hreq. unfold send_request, http.NewRequestWithContext.
      destruct ctx; [discriminate|reflexivity]. }
    split; [|split].
    + split; [|eauto]. intros _. left. reflexivity.
    + split; [discriminate|]. intros (? & ? & [=] & _).
    + intros ? ? [=].
Qed.

(** Scenario B of the specification: status 500 is a failure; status 200 is
    the success. *)
Example send_500_200 :
  send sample_Format (sample_Do 500) sample_notifier true sample_event =
    Some "pushover returned status 500" ∧
  send sample_Format (sample_Do 200) sample_notifier true sample_event = None.
Proof. split; reflexivity. Qed.

(** ** The arguments of the INSERT statement *)

(** What [insertEntry] binds to the three columns of the filter. *)
Lemma insertEntry_filter_columns (IP_String : list Byte.byte → string)
    (json_Marshal : querylog.FilteringResult → string + error)
    (c : querylog.mysqlClient) (entry : querylog.logEntry) :
  let res := querylog.Result entry in
  let args := querylog.insertEntry_args IP_String json_Marshal c entry in
  querylog.bound querylog.insertSQL args "filter_reason" =
    Some (if querylog.IsFiltered res then querylog.Int (querylog.Reason res)
          else querylog.NULL) ∧
  querylog.bound querylog.insertSQL args "filter_rule" =
    Some (match querylog.IsFiltered res, querylog.Rules res with
          | true, rule :: _ => querylog.Str (querylog.Text rule)
          | _, _ => querylog.NULL
          end) ∧
  querylog.bound querylog.insertSQL args "service_name" =
    Some (if querylog.IsFiltered res && negb (String.eqb (querylog.ServiceName res) "")
          then querylog.Str (querylog.ServiceName res)
          else querylog.NULL) ∧
  querylog.bound querylog.insertSQL args "is_filtered" =
    Some (querylog.Bool (querylog.IsFiltered res)).
Proof.
  intros res args. subst res args.
  unfold querylog.insertEntry_args, querylog.insertEntry_pointers.
  destruct (querylog.IsFiltered (querylog.Result entry));
    destruct (querylog.Rules (querylog.Result entry));
    destruct (String.eqb (querylog.ServiceName (querylog.Result entry)) "");
    repeat split.
Qed.

(** C10: for an entry whose result is not filtered, [insertEntry] passes
    NULL for the columns filter_reason, filter_rule and service_name,
    whatever rules and service name the result holds; and an argument other
    than NULL for one of them means that the result is filtered and, for
    filter_rule, that it has a rule, for service_name, that its service name
    is not empty. *)
Theorem insertEntry_unfiltered_nulls (IP_String : list Byte.byte → string)
    (json_Marshal : querylog.FilteringResult → string + error)
    (c : querylog.mysqlClient) (entry : querylog.logEntry) :
  let res := querylog.Result entry in
  let args := querylog.insertEntry_args IP_String json_Marshal c entry in
  (querylog.IsFiltered res = false →
   querylog.bound querylog.insertSQL args "filter_reason" = Some querylog.NULL ∧
   querylog.bound querylog.insertSQL args "filter_rule" = Some querylog.NULL ∧
   querylog.bound querylog.insertSQL args "service_name" = Some querylog.NULL) ∧
  (querylog.bound querylog.insertSQL args "filter_reason" ≠ Some querylog.NULL →
   querylog.IsFiltered res = true) ∧
  (querylog.bound querylog.insertSQL args "filter_rule" ≠ Some querylog.NULL →
   querylog.IsFiltered res = true ∧ querylog.Rules res ≠ []) ∧
  (querylog.bound querylog.insertSQL args "service_name" ≠ Some querylog.NULL →
   querylog.IsFiltered res = true ∧ querylog.ServiceName res ≠ "").
Proof.
  intros res args.
  destruct (insertEntry_filter_columns IP_String json_Marshal c entry)
    as (Hreason & Hrule & Hname & _).
  fold res args in Hreason, Hrule, Hname.
  rewrite Hreason, Hrule, Hname.
  destruct (querylog.IsFiltered res); simpl.
  - split; [discriminate|]. split; [reflexivity|]. split.
    + destruct (querylog.Rules res); [congruence|]. intros _. split; congruence.
    + destruct (String.eqb_spec (querylog.ServiceName res) ""); simpl;
        [congruence|]. intros _. split; [reflexivity|assumption].
  - repeat split; congruence.
Qed.

(** C10 at work: the sample entry is not filtered, has a rule and a service
    name, and gets three NULLs. *)
Lemma insertEntry_unfiltered_nulls_witness :
  let args := querylog.insertEntry_args sample_IP_String sample_Marshal
                {| querylog.hostname := "dns1" |} sample_entry in
  querylog.Rules (querylog.Result sample_entry) ≠ [] ∧
  querylog.ServiceName (querylog.Result sample_entry) ≠ "" ∧
  querylog.bound querylog.insertSQL args "filter_reason" = Some querylog.NULL ∧
  querylog.bound querylog.insertSQL args "filter_rule" = Some querylog.NULL ∧
  querylog.bound querylog.insertSQL args "service_name" = Some querylog.NULL.
Proof.
  intros args. split; [discriminate|]. split; [discriminate|].
  apply (proj1 (insertEntry_unfiltered_nulls sample_IP_String sample_Marshal
                  {| querylog.hostname := "dns1" |} sample_entry)).
  reflexivity.
Defined.

(** A filtered entry with a rule and a service name gets the three values. *)
Example insertEntry_filtered :
  let entry := {|
    querylog.Time := sample_t0;
    querylog.QHost := "ads.example"; querylog.QType := "A"; querylog.QClass := "IN";
    querylog.ReqECS := ""; querylog.ClientID := "";
    querylog.ClientProto := ""; querylog.Upstream := "";
    querylog.Answer := []; querylog.OrigAnswer := [];
    querylog.IP := [];
    querylog.Result := {|
      querylog.IsFiltered := true;
      querylog.Reason := 3;
      querylog.Rules := [ {| querylog.Text := "||ads.example^" |} ];
      querylog.ServiceName := "svc"
    |};
    querylog.Elapsed := 0;
    querylog.Cached := false; querylog.AuthenticatedData := false
  |} in
  let args := querylog.insertEntry_args sample_IP_String sample_Marshal
                {| querylog.hostname := "dns1" |} entry in
  length args = length querylog.insertSQL ∧
  querylog.bound querylog.insertSQL args "client_id" = Some querylog.NULL ∧
  querylog.bound querylog.insertSQL args "filter_reason" = Some (querylog.Int 3) ∧
  querylog.bound querylog.insertSQL args "filter_rule" =
    Some (querylog.Str "||ads.example^") ∧
  querylog.bound querylog.insertSQL args "service_name" = Some (querylog.Str "svc").
Proof. repeat split. Qed.

(** * Further properties of the code *)

(** ** The global limiter and the composition of the two limiters *)

(** X1: the global limiter admits at the clock reading [now], and records
    [now], if and only if [now] minus the recorded instant is at least the
    interval; otherwise it answers [false] and stays as it is.  The interval
    is any duration but the least one. *)
Theorem global_shouldNotify_spec (g : globalRateLimit.t) (now : time.Time) :
  time.minDuration < globalRateLimit.interval g ≤ time.maxDuration →
  ((globalRateLimit.shouldNotify g now).1 = true ↔
   globalRateLimit.interval g ≤ now - globalRateLimit.lastSent g) ∧
  (globalRateLimit.interval g ≤ now - globalRateLimit.lastSent g →
   globalRateLimit.shouldNotify g now =
   (true, globalRateLimit.mk now (globalRateLimit.interval g))) ∧
  (now - globalRateLimit.lastSent g < globalRateLimit.interval g →
   globalRateLimit.shouldNotify g now = (false, g)).
Proof.
  intros Hi. unfold globalRateLimit.shouldNotify. rewrite Sub_ltb by exact Hi.
  destruct (Z.ltb_spec (now - globalRateLimit.lastSent g) (globalRateLimit.interval g));
    simpl; (split; [split|split]); intros; try reflexivity; try discriminate; lia.
Qed.

(** X1 at work: a limiter of one minute that last admitted at instant 0. *)
Lemma global_shouldNotify_spec_witness :
  globalRateLimit.shouldNotify (globalRateLimit.mk 0 time.Minute) (time.Minute - 1) =
  (false, globalRateLimit.mk 0 time.Minute) ∧
  globalRateLimit.shouldNotify (globalRateLimit.mk 0 time.Minute) time.Minute =
  (true, globalRateLimit.mk time.Minute time.Minute).
Proof.
  assert (Hi : time.minDuration <
               globalRateLimit.interval (globalRateLimit.mk 0 time.Minute)
               ≤ time.maxDuration) by duration_lia.
  split.
  - apply (proj2 (proj2 (global_shouldNotify_spec _ (time.Minute - 1) Hi))).
    duration_lia.
  - apply (proj1 (proj2 (global_shouldNotify_spec _ time.Minute Hi))).
    duration_lia.
Defined.

(** [ShouldNotify] written out on the comparisons the limiters make. *)
Lemma ShouldNotify_unfold (n : PushoverNotifier) (d : string)
    (tg td : time.Time) :
  ShouldNotify n d tg td =
  if time.Sub tg (globalRateLimit.lastSent (globalRateLimit n))
       <? globalRateLimit.interval (globalRateLimit n)
  then ((false, "global"), n)
  else
    let g := globalRateLimit.mk tg (globalRateLimit.interval (globalRateLimit n)) in
    match domainRateLimit.lastNotified (domainRateLimit n) !! d with
    | Some last =>
        if time.Sub td last <? domainRateLimit.interval (domainRateLimit n)
        then ((false, "domain"),
              {| client := client n; domainRateLimit := domainRateLimit n;
                 globalRateLimit := g; config := config n |})
        else ((true, ""),
              {| client := client n;
                 domainRateLimit :=
                   domainRateLimit.mk
                     (<[d := td]> (domainRateLimit.lastNotified (domainRateLimit n)))
                     (domainRateLimit.interval (domainRateLimit n));
                 globalRateLimit := g; config := config n |})
    | None =>
        ((true, ""),
         {| client := client n;
            domainRateLimit :=
              domainRateLimit.mk
                (<[d := td]> (domainRateLimit.lastNotified (domainRateLimit n)))
                (domainRateLimit.interval (domainRateLimit n));
            globalRateLimit := g; config := config n |})
    end.
Proof.
  unfold ShouldNotify, globalRateLimit.shouldNotify, domainRateLimit.shouldNotify.
  destruct n as [c dl g cfg]. simpl.
  destruct (_ <? _); [reflexivity|]. simpl.
  destruct (domainRateLimit.lastNotified dl !! d); [|reflexivity].
  destruct (_ <? _); reflexivity.
Qed.

(** [ShouldNotify] changes neither interval, nor the client, nor the
    configuration. *)
Lemma ShouldNotify_intervals (n : PushoverNotifier) (d : string)
    (tg td : time.Time) :
  let n' := (ShouldNotify n d tg td).2 in
  globalRateLimit.interval (globalRateLimit n') =
    globalRateLimit.interval (globalRateLimit n) ∧
  domainRateLimit.interval (domainRateLimit n') =
    domainRateLimit.interval (domainRateLimit n) ∧
  client n' = client n ∧ config n' = config n.
Proof.
  simpl. rewrite ShouldNotify_unfold.
  destruct (_ <? _); [repeat split|]. simpl.
  destruct (domainRateLimit.lastNotified (domainRateLimit n) !! d);
    [destruct (_ <? _)|]; repeat split.
Qed.

(** X2: the answer of [ShouldNotify] in terms of the two windows.  The
    request is admitted exactly when both windows are open, it is blocked by
    "domain" exactly when the global window is open and the domain's is not,
    and by "global" exactly when the global window is closed.  Whenever the
    global window is open the global limiter records its clock reading, also
    when the domain limiter then denies; the domain's instant is recorded
    only on admission. *)
Theorem ShouldNotify_answer (n : PushoverNotifier) (d : string)
    (tg td : time.Time) :
  time.minDuration < globalRateLimit.interval (globalRateLimit n) ≤ time.maxDuration →
  time.minDuration < domainRateLimit.interval (domainRateLimit n) ≤ time.maxDuration →
  let global_open :=
    globalRateLimit.interval (globalRateLimit n)
      ≤ tg - globalRateLimit.lastSent (globalRateLimit n) in
  let domain_open :=
    ∀ last, domainRateLimit.lastNotified (domainRateLimit n) !! d = Some last →
            domainRateLimit.interval (domainRateLimit n) ≤ td - last in
  let a := (ShouldNotify n d tg td).1 in
  let n' := (ShouldNotify n d tg td).2 in
  (a = (true, "") ↔ global_open ∧ domain_open) ∧
  (a = (false, "domain") ↔ global_open ∧ ¬ domain_open) ∧
  (a = (false, "global") ↔ ¬ global_open) ∧
  (global_open → globalRateLimit.lastSent (globalRateLimit n') = tg) ∧
  (a = (true, "") →
   domainRateLimit.lastNotified (domainRateLimit n') =
   <[d := td]> (domainRateLimit.lastNotified (domainRateLimit n))) ∧
  (a ≠ (true, "") → domainRateLimit n' = domainRateLimit n) ∧
  (¬ global_open → n' = n).
Proof.
  intros Hg Hd global_open domain_open a n'.
  assert (Hcase :
    (¬ global_open ∧ ShouldNotify n d tg td = ((false, "global"), n)) ∨
    (global_open ∧ ¬ domain_open ∧
     ShouldNotify n d tg td =
     ((false, "domain"),
      {| client := client n; domainRateLimit := domainRateLimit n;
         globalRateLimit :=
           globalRateLimit.mk tg (globalRateLimit.interval (globalRateLimit n));
         config := config n |})) ∨
    (global_open ∧ domain_open ∧
     ShouldNotify n d tg td =
     ((true, ""),
      {| client := client n;
         domainRateLimit :=
           domainRateLimit.mk
             (<[d := td]> (domainRateLimit.lastNotified (domainRateLimit n)))
             (domainRateLimit.interval (domainRateLimit n));
         globalRateLimit :=
           globalRateLimit.mk tg (globalRateLimit.interval (globalRateLimit n));
         config := config n |}))).
  { subst global_open domain_open.
    rewrite ShouldNotify_unfold, (Sub_ltb _ _ _ Hg).
    destruct (Z.ltb_spec (tg - globalRateLimit.lastSent (globalRateLimit n))
                (globalRateLimit.interval (globalRateLimit n))) as [Hc|Ho]; simpl.
    { left. split; [lia|reflexivity]. }
    right.
    destruct (domainRateLimit.lastNotified (domainRateLimit n) !! d) as [last|] eqn:Hl.
    - rewrite (Sub_ltb _ _ _ Hd).
      destruct (Z.ltb_spec (td - last) (domainRateLimit.interval (domainRateLimit n)))
        as [Hdc|Hdo].
      + left. split; [exact Ho|]. split; [|reflexivity].
        intros Hopen. specialize (Hopen last eq_refl). lia.
      + right. split; [exact Ho|]. split; [|reflexivity].
        intros l [= <-]. exact Hdo.
    - right. split; [exact Ho|]. split; [|reflexivity]. intros l [=]. }
  subst a n'. clearbody global_open domain_open.
  destruct Hcase as [(Hngo & ->)|[(Hgo & Hnd & ->)|(Hgo & Hdo & ->)]]; simpl;
    split_and!; try reflexivity;
    intuition (first [discriminate | congruence]).
Qed.

(** X2 at work: the first request on the sample notifier finds both windows
    open. *)
Lemma ShouldNotify_answer_witness :
  (ShouldNotify sample_notifier "a.com" sample_t0 sample_t0).1 = (true, "").
Proof.
  apply (proj1 (ShouldNotify_answer sample_notifier "a.com" sample_t0 sample_t0
                  ltac:(duration_lia) ltac:(duration_lia))).
  split.
  - vm_compute. discriminate.
  - intros last Hlast. discriminate Hlast.
Defined.

(** X3: a request that the domain limiter denies has already taken the
    global slot: the next request, for whatever domain, that comes less than
    the global interval later is blocked by "global", although no
    notification went out in between. *)
Theorem domain_denial_takes_global_slot (n : PushoverNotifier)
    (d d' : string) (tg td tg' td' : time.Time) :
  time.minDuration < globalRateLimit.interval (globalRateLimit n) ≤ time.maxDuration →
  (ShouldNotify n d tg td).1 = (false, "domain") →
  tg' - tg < globalRateLimit.interval (globalRateLimit n) →
  ShouldNotify (ShouldNotify n d tg td).2 d' tg' td' =
  ((false, "global"), (ShouldNotify n d tg td).2).
Proof.
  intros Hg Hans Hlt.
  assert (Hn1 : globalRateLimit (ShouldNotify n d tg td).2 =
                globalRateLimit.mk tg (globalRateLimit.interval (globalRateLimit n))).
  { revert Hans. rewrite ShouldNotify_unfold.
    destruct (_ <? _); [discriminate|]. simpl.
    destruct (domainRateLimit.lastNotified (domainRateLimit n) !! d);
      [destruct (_ <? _)|]; try discriminate. reflexivity. }
  rewrite (ShouldNotify_unfold (ShouldNotify n d tg td).2), Hn1. simpl.
  rewrite (Sub_ltb _ _ _ Hg).
  destruct (Z.ltb_spec (tg' - tg) (globalRateLimit.interval (globalRateLimit n)));
    [reflexivity|lia].
Qed.

(** X3 at work: "a.com" is admitted at noon and asks again 61 seconds later;
    the domain limiter denies, and "b.com", which never had a notification,
    is blocked by "global" one second after that. *)
Lemma domain_denial_takes_global_slot_witness :
  let n1 := (ShouldNotify sample_notifier "a.com" sample_t0 sample_t0).2 in
  let t1 := sample_t0 + 61 * time.Second in
  (ShouldNotify n1 "a.com" t1 t1).1 = (false, "domain") ∧
  (ShouldNotify (ShouldNotify n1 "a.com" t1 t1).2 "b.com"
     (t1 + time.Second) (t1 + time.Second)).1 = (false, "global").
Proof.
  intros n1 t1. split; [reflexivity|].
  rewrite (domain_denial_takes_global_slot n1 "a.com" "b.com" t1 t1
             (t1 + time.Second) (t1 + time.Second));
    [reflexivity| | |].
  - vm_compute. split; [reflexivity|discriminate].
  - reflexivity.
  - vm_compute. reflexivity.
Defined.

(** ** Runs of requests *)

Lemma ShouldNotify_all_cons (n : PushoverNotifier) (d : string)
    (tg td : time.Time) (reqs : list (string * time.Time * time.Time)) :
  ShouldNotify_all n ((d, tg, td) :: reqs) =
  ((ShouldNotify n d tg td).1 ::
     (ShouldNotify_all (ShouldNotify n d tg td).2 reqs).1,
   (ShouldNotify_all (ShouldNotify n d tg td).2 reqs).2).
Proof.
  simpl. destruct (ShouldNotify n d tg td) as [a n1]. cbn [fst snd].
  destruct (ShouldNotify_all n1 reqs). reflexivity.
Qed.

(** One request moves the instant of the global limiter forward by at least
    the interval, or not at all; it moves it to its clock reading when it
    passes the global gate. *)
Lemma ShouldNotify_lastSent (n : PushoverNotifier) (d : string)
    (tg td : time.Time) :
  time.minDuration < globalRateLimit.interval (globalRateLimit n) ≤ time.maxDuration →
  let n1 := (ShouldNotify n d tg td).2 in
  let a := (ShouldNotify n d tg td).1 in
  (a.2 = "global" ∧ n1 = n) ∨
  (a.2 ≠ "global" ∧
   globalRateLimit.lastSent (globalRateLimit n1) = tg ∧
   globalRateLimit.interval (globalRateLimit n)
     ≤ tg - globalRateLimit.lastSent (globalRateLimit n)).
Proof.
  intros Hg. simpl. rewrite ShouldNotify_unfold, (Sub_ltb _ _ _ Hg).
  destruct (Z.ltb_spec (tg - globalRateLimit.lastSent (globalRateLimit n))
              (globalRateLimit.interval (globalRateLimit n))); simpl.
  - left. split; reflexivity.
  - right.
    destruct (domainRateLimit.lastNotified (domainRateLimit n) !! d);
      [destruct (_ <? _)|]; simpl; (split; [discriminate|split; [reflexivity|lia]]).
Qed.

(** A request of a run that passes the global gate comes at least one
    interval after the instant the global limiter held before the run. *)
Lemma global_gap_from_state (reqs : list (string * time.Time * time.Time)) :
  ∀ (n : PushoverNotifier) (j : nat) (d : string) (tg td : time.Time)
    (a : bool * string),
  0 ≤ globalRateLimit.interval (globalRateLimit n) ≤ time.maxDuration →
  reqs !! j = Some (d, tg, td) →
  (ShouldNotify_all n reqs).1 !! j = Some a →
  a.2 ≠ "global" →
  globalRateLimit.interval (globalRateLimit n)
    ≤ tg - globalRateLimit.lastSent (globalRateLimit n).
Proof.
  induction reqs as [|[[d0 tg0] td0] reqs IH]; intros n j d tg td a Hi Hj Ha Hne;
    [discriminate|].
  assert (Hg : time.minDuration < globalRateLimit.interval (globalRateLimit n)
               ≤ time.maxDuration) by duration_lia.
  rewrite ShouldNotify_all_cons in Ha. simpl in Ha.
  destruct (ShouldNotify_lastSent n d0 tg0 td0 Hg) as [[Hgl Hn1]|(Hpass & Hls & Hgap)].
  - destruct j as [|j]; simpl in Hj, Ha.
    + injection Ha as <-. contradiction.
    + rewrite Hn1 in Ha. exact (IH n j d tg td a Hi Hj Ha Hne).
  - destruct j as [|j]; simpl in Hj, Ha.
    + injection Hj as <- <- <-. exact Hgap.
    + destruct (ShouldNotify_intervals n d0 tg0 td0) as (Hig & _).
      pose proof (IH _ j d tg td a ltac:(rewrite Hig; exact Hi) Hj Ha Hne) as Hrec.
      rewrite Hig, Hls in Hrec. lia.
Qed.

(** X4: in any run of requests, two requests that pass the global gate (the
    admitted ones and the ones the domain limiter denies) have clock
    readings at least one global interval apart, whatever the order of the
    readings. *)
Theorem global_spacing (reqs : list (string * time.Time * time.Time)) :
  ∀ (n : PushoverNotifier) (i j : nat) (di dj : string)
    (tgi tdi tgj tdj : time.Time) (ai aj : bool * string),
  0 ≤ globalRateLimit.interval (globalRateLimit n) ≤ time.maxDuration →
  (i < j)%nat →
  reqs !! i = Some (di, tgi, tdi) →
  reqs !! j = Some (dj, tgj, tdj) →
  (ShouldNotify_all n reqs).1 !! i = Some ai →
  (ShouldNotify_all n reqs).1 !! j = Some aj →
  ai.2 ≠ "global" → aj.2 ≠ "global" →
  globalRateLimit.interval (globalRateLimit n) ≤ tgj - tgi.
Proof.
  induction reqs as [|[[d0 tg0] td0] reqs IH];
    intros n i j di dj tgi tdi tgj tdj ai aj Hi Hij Hri Hrj Hai Haj Hni Hnj;
    [discriminate|].
  assert (Hg : time.minDuration < globalRateLimit.interval (globalRateLimit n)
               ≤ time.maxDuration) by duration_lia.
  destruct j as [|j]; [lia|].
  rewrite ShouldNotify_all_cons in Hai, Haj. simpl in Hai, Haj, Hrj.
  destruct (ShouldNotify_intervals n d0 tg0 td0) as (Hig & _).
  destruct i as [|i]; simpl in Hri, Hai.
  - injection Hri as -> -> ->. injection Hai as <-.
    destruct (ShouldNotify_lastSent n di tgi tdi Hg) as [[Hgl _]|(_ & Hls & _)];
      [contradiction|].
    pose proof (global_gap_from_state reqs _ j dj tgj tdj aj
                  ltac:(rewrite Hig; exact Hi) Hrj Haj Hnj) as Hgap.
    rewrite Hig, Hls in Hgap. exact Hgap.
  - rewrite <- Hig.
    apply (IH _ i j di dj tgi tdi tgj tdj ai aj); try assumption; [|lia].
    rewrite Hig. exact Hi.
Qed.

(** X4 at work, on the run of scenario A: the first and the last request are
    admitted, 61 seconds apart. *)
Lemma global_spacing_witness :
  time.Minute ≤ (sample_t0 + 61 * time.Second) - sample_t0.
Proof.
  apply (global_spacing
           [ ("a.com", sample_t0, sample_t0);
             ("a.com", sample_t0 + time.Second, sample_t0 + time.Second);
             ("b.com", sample_t0 + 30 * time.Second, sample_t0 + 30 * time.Second);
             ("b.com", sample_t0 + 61 * time.Second, sample_t0 + 61 * time.Second) ]
           sample_notifier 0 3 "a.com" "b.com"
           sample_t0 sample_t0 (sample_t0 + 61 * time.Second)
           (sample_t0 + 61 * time.Second) (true, "") (true, ""));
    try reflexivity; try discriminate.
  - duration_lia.
  - lia.
Defined.

(** One request leaves the instant recorded for a domain, or replaces it by
    one that is at least the interval later. *)
Lemma ShouldNotify_lastNotified (n : PushoverNotifier) (d0 d : string)
    (tg0 td0 t0 : time.Time) :
  time.minDuration < domainRateLimit.interval (domainRateLimit n) ≤ time.maxDuration →
  domainRateLimit.lastNotified (domainRateLimit n) !! d = Some t0 →
  ∃ t1, domainRateLimit.lastNotified
          (domainRateLimit (ShouldNotify n d0 tg0 td0).2) !! d = Some t1 ∧
        (t1 = t0 ∨ domainRateLimit.interval (domainRateLimit n) ≤ t1 - t0).
Proof.
  intros Hd Hl. rewrite ShouldNotify_unfold.
  destruct (_ <? _); [eauto|]. simpl.
  destruct (decide (d0 = d)) as [->|Hne].
  - rewrite Hl, (Sub_ltb _ _ _ Hd).
    destruct (Z.ltb_spec (td0 - t0) (domainRateLimit.interval (domainRateLimit n)));
      simpl; [eauto|].
    exists td0. rewrite lookup_insert_eq. split; [reflexivity|]. right. assumption.
  - exists t0. split; [|left; reflexivity].
    destruct (domainRateLimit.lastNotified (domainRateLimit n) !! d0);
      [destruct (_ <? _)|]; simpl; rewrite ?lookup_insert_ne by exact Hne;
      exact Hl.
Qed.

(** An admitted request records its clock reading for its domain. *)
Lemma ShouldNotify_admitted_records (n : PushoverNotifier) (d : string)
    (tg td : time.Time) :
  (ShouldNotify n d tg td).1 = (true, "") →
  domainRateLimit.lastNotified (domainRateLimit (ShouldNotify n d tg td).2) !! d =
  Some td.
Proof.
  rewrite ShouldNotify_unfold.
  destruct (_ <? _); [discriminate|]. simpl.
  destruct (domainRateLimit.lastNotified (domainRateLimit n) !! d);
    [destruct (_ <? _)|]; simpl; try discriminate;
    intros _; apply lookup_insert_eq.
Qed.

(** An admitted request of a run comes at least one interval after the
    instant recorded for its domain before the run. *)
Lemma domain_gap_from_state (reqs : list (string * time.Time * time.Time)) :
  ∀ (n : PushoverNotifier) (j : nat) (d : string) (tg td t0 : time.Time),
  0 ≤ domainRateLimit.interval (domainRateLimit n) ≤ time.maxDuration →
  domainRateLimit.lastNotified (domainRateLimit n) !! d = Some t0 →
  reqs !! j = Some (d, tg, td) →
  (ShouldNotify_all n reqs).1 !! j = Some (true, "") →
  domainRateLimit.interval (domainRateLimit n) ≤ td - t0.
Proof.
  induction reqs as [|[[d0 tg0] td0] reqs IH]; intros n j d tg td t0 Hi Hl Hj Ha;
    [discriminate|].
  assert (Hd : time.minDuration < domainRateLimit.interval (domainRateLimit n)
               ≤ time.maxDuration) by duration_lia.
  rewrite ShouldNotify_all_cons in Ha. simpl in Ha.
  destruct j as [|j]; simpl in Hj, Ha.
  - injection Hj as -> -> ->. injection Ha as Ha.
    revert Ha. rewrite ShouldNotify_unfold.
    destruct (_ <? _); [discriminate|]. simpl.
    rewrite Hl, (Sub_ltb _ _ _ Hd).
    destruct (Z.ltb_spec (td - t0) (domainRateLimit.interval (domainRateLimit n)));
      [discriminate|]. intros _. assumption.
  - destruct (ShouldNotify_intervals n d0 tg0 td0) as (_ & Hid & _).
    destruct (ShouldNotify_lastNotified n d0 d tg0 td0 t0 Hd Hl) as (t1 & Hl1 & Ht1).
    pose proof (IH _ j d tg td t1 ltac:(rewrite Hid; exact Hi) Hl1 Hj Ha) as Hrec.
    rewrite Hid in Hrec. lia.
Qed.

(** X5: in any run of requests, two admitted requests for the same domain
    have clock readings at least one domain interval apart, whatever the
    order of the readings and whatever happens to other domains in
    between. *)
Theorem domain_spacing (reqs : list (string * time.Time * time.Time)) :
  ∀ (n : PushoverNotifier) (i j : nat) (d : string)
    (tgi tdi tgj tdj : time.Time),
  0 ≤ domainRateLimit.interval (domainRateLimit n) ≤ time.maxDuration →
  (i < j)%nat →
  reqs !! i = Some (d, tgi, tdi) →
  reqs !! j = Some (d, tgj, tdj) →
  (ShouldNotify_all n reqs).1 !! i = Some (true, "") →
  (ShouldNotify_all n reqs).1 !! j = Some (true, "") →
  domainRateLimit.interval (domainRateLimit n) ≤ tdj - tdi.
Proof.
  induction reqs as [|[[d0 tg0] td0] reqs IH];
    intros n i j d tgi tdi tgj tdj Hi Hij Hri Hrj Hai Haj; [discriminate|].
  destruct j as [|j]; [lia|].
  rewrite ShouldNotify_all_cons in Hai, Haj. simpl in Hai, Haj, Hrj.
  destruct (ShouldNotify_intervals n d0 tg0 td0) as (_ & Hid & _).
  destruct i as [|i]; simpl in Hri, Hai.
  - injection Hri as -> -> ->. injection Hai as Hai.
    pose proof (ShouldNotify_admitted_records n d tgi tdi Hai) as Hrec.
    pose proof (domain_gap_from_state reqs _ j d tgj tdj tdi
                  ltac:(rewrite Hid; exact Hi) Hrec Hrj Haj) as Hgap.
    rewrite Hid in Hgap. exact Hgap.
  - rewrite <- Hid.
    apply (IH _ i j d tgi tdi tgj tdj); try assumption; [|lia].
    rewrite Hid. exact Hi.
Qed.

(** X5 at work: "a.com" is admitted at noon and again five minutes later,
    with a request for "b.com" in between. *)
Lemma domain_spacing_witness :
  5 * time.Minute ≤ (sample_t0 + 5 * time.Minute) - sample_t0.
Proof.
  apply (domain_spacing
           [ ("a.com", sample_t0, sample_t0);
             ("b.com", sample_t0 + 2 * time.Minute, sample_t0 + 2 * time.Minute);
             ("a.com", sample_t0 + 5 * time.Minute, sample_t0 + 5 * time.Minute) ]
           sample_notifier 0 2 "a.com"
           sample_t0 sample_t0 (sample_t0 + 5 * time.Minute)
           (sample_t0 + 5 * time.Minute));
    try reflexivity.
  - duration_lia.
  - lia.
Defined.

(** ** A new notifier *)

(** X6: [NewPushoverNotifier] returns a notifier for every configuration,
    whatever its two rates (it never panics): the client has a timeout of
    10 seconds, the configuration is kept, no domain has a record and the
    global instant is the zero [Time]; and this notifier admits its first
    request, for any domain, at any clock reading from one minute after the
    zero [Time] on. *)
Theorem NewPushoverNotifier_fresh (cfg : PushoverConfig) :
  ∃ n, NewPushoverNotifier cfg = Some n ∧
       http.Timeout (client n) = 10 * time.Second ∧
       config n = cfg ∧
       domainRateLimit.lastNotified (domainRateLimit n) = ∅ ∧
       globalRateLimit.lastSent (globalRateLimit n) = time.zero ∧
       ∀ d tg td, time.Minute ≤ tg →
                  (ShouldNotify n d tg td).1 = (true, "").
Proof.
  unfold NewPushoverNotifier.
  destruct (newDomainRateLimit (RateLimitPer5Min cfg)) as [dl|] eqn:Hdl;
    [|rewrite newDomainRateLimit_eq in Hdl; discriminate].
  destruct (newGlobalRateLimit (GlobalRateLimitPerMin cfg)) as [g|] eqn:Hg;
    [|rewrite newGlobalRateLimit_eq in Hg; discriminate].
  pose proof (newGlobalRateLimit_interval _ _ Hg) as Hgi.
  rewrite newDomainRateLimit_eq in Hdl. rewrite newGlobalRateLimit_eq in Hg.
  injection Hdl as <-. injection Hg as <-.
  eexists. split; [reflexivity|]. simpl in *.
  repeat (split; [reflexivity|]).
  intros d tg td Htg. rewrite ShouldNotify_unfold. simpl.
  rewrite Sub_ltb by duration_lia. unfold time.zero.
  destruct (Z.ltb_spec (tg - 0)
              (if 1 <? GlobalRateLimitPerMin cfg
               then time.Minute ÷ GlobalRateLimitPerMin cfg else time.Minute));
    [lia|]. simpl. rewrite lookup_empty. reflexivity.
Qed.

(** X6 at work: the sample configuration at noon of 1 January 2026. *)
Lemma NewPushoverNotifier_fresh_witness :
  ∃ n, NewPushoverNotifier sample_config = Some n ∧
       (ShouldNotify n "a.com" sample_t0 sample_t0).1 = (true, "").
Proof.
  destruct (NewPushoverNotifier_fresh sample_config) as (n & Hn & _ & _ & _ & _ & Hfirst).
  exists n. split; [exact Hn|]. apply Hfirst. vm_compute. discriminate.
Defined.

(** ** What [cleanup] does to later calls *)

(** X7: [cleanup] only removes records: what is left is a part of the map
    before, with the instants as they were; a second [cleanup] at the same
    clock reading removes nothing more, and a [cleanup] at a later reading
    removes all that an earlier one would have removed. *)
Theorem cleanup_shrinks (r : domainRateLimit.t) (now now' : time.Time) :
  domainRateLimit.lastNotified (domainRateLimit.cleanup r now)
    ⊆ domainRateLimit.lastNotified r ∧
  domainRateLimit.cleanup (domainRateLimit.cleanup r now) now =
    domainRateLimit.cleanup r now ∧
  (now ≤ now' →
   domainRateLimit.cleanup (domainRateLimit.cleanup r now) now' =
   domainRateLimit.cleanup r now').
Proof.
  assert (Hlater : ∀ t1 t2, t1 ≤ t2 →
            domainRateLimit.cleanup (domainRateLimit.cleanup r t1) t2 =
            domainRateLimit.cleanup r t2).
  { intros t1 t2 Ht. unfold domainRateLimit.cleanup. simpl. f_equal.
    apply map_eq. intros d. rewrite !cleanup_fold_lookup.
    unfold time.Add, time.Before.
    set (k := time.mul (time.neg (domainRateLimit.interval r)) 2).
    destruct (domainRateLimit.lastNotified r !! d) as [t0|]; [|reflexivity].
    destruct (Z.ltb_spec t0 (t1 + k)), (Z.ltb_spec t0 (t2 + k));
      try reflexivity; lia. }
  split; [|split].
  - apply map_subseteq_spec. intros d t0. unfold domainRateLimit.cleanup. simpl.
    rewrite cleanup_fold_lookup.
    destruct (domainRateLimit.lastNotified r !! d) as [t1|]; [|discriminate].
    destruct (time.Before t1 _); [discriminate|]. intros H. exact H.
  - apply Hlater. lia.
  - apply Hlater.
Qed.

(** X7 at work: a [cleanup] at 20 minutes after a [cleanup] at 12 minutes. *)
Lemma cleanup_shrinks_witness :
  let r := domainRateLimit.mk
             {[ "old.com" := 0; "mid.com" := 5 * time.Minute;
                "new.com" := 15 * time.Minute ]}
             (5 * time.Minute) in
  domainRateLimit.cleanup (domainRateLimit.cleanup r (12 * time.Minute))
    (20 * time.Minute) =
  domainRateLimit.cleanup r (20 * time.Minute).
Proof.
  intros r.
  apply (proj2 (proj2 (cleanup_shrinks r (12 * time.Minute) (20 * time.Minute)))).
  duration_lia.
Defined.

(** [Cleanup] at the clock reading [now] prunes records older than [now]
    minus twice the interval. *)
Lemma Cleanup_pruned (n : PushoverNotifier) (now : time.Time) :
  time.minDuration ≤ - (2 * domainRateLimit.interval (domainRateLimit n))
    ≤ time.maxDuration →
  pruned (now - 2 * domainRateLimit.interval (domainRateLimit n)) n (Cleanup n now).
Proof.
  intros Hi. unfold pruned, Cleanup. simpl. repeat (split; [reflexivity|]).
  intros d. rewrite cleanup_fold_lookup, cleanup_cutoff by exact Hi.
  destruct (domainRateLimit.lastNotified (domainRateLimit n) !! d) as [t0|];
    [|left; reflexivity].
  unfold time.Before.
  destruct (Z.ltb_spec t0 (now - 2 * domainRateLimit.interval (domainRateLimit n)));
    [right; eauto|left; reflexivity].
Qed.

(** A request whose domain reading is at least one interval after [c] gets
    the same answer from a notifier and from a pruned one, and leaves the
    second a pruned version of the first. *)
Lemma pruned_step (c : time.Time) (n n' : PushoverNotifier) (d : string)
    (tg td : time.Time) :
  0 ≤ domainRateLimit.interval (domainRateLimit n) ≤ time.maxDuration →
  c + domainRateLimit.interval (domainRateLimit n) ≤ td →
  pruned c n n' →
  (ShouldNotify n' d tg td).1 = (ShouldNotify n d tg td).1 ∧
  pruned c (ShouldNotify n d tg td).2 (ShouldNotify n' d tg td).2.
Proof.
  intros Hi Htd (Hc & Hcfg & Hg & Hint & Hmap).
  assert (Hd : time.minDuration < domainRateLimit.interval (domainRateLimit n)
               ≤ time.maxDuration) by duration_lia.
  rewrite !ShouldNotify_unfold, Hg, Hint, Hc, Hcfg.
  destruct (_ <? _);
    [unfold pruned; simpl; split_and!; try reflexivity; assumption|].
  simpl.
  assert (Hins : ∀ k,
     <[d := td]> (domainRateLimit.lastNotified (domainRateLimit n')) !! k =
     <[d := td]> (domainRateLimit.lastNotified (domainRateLimit n)) !! k ∨
     (<[d := td]> (domainRateLimit.lastNotified (domainRateLimit n')) !! k = None ∧
      ∃ t0, <[d := td]> (domainRateLimit.lastNotified (domainRateLimit n)) !! k
              = Some t0 ∧ t0 < c)).
  { intros k. destruct (decide (d = k)) as [->|Hne].
    - left. rewrite !lookup_insert_eq. reflexivity.
    - rewrite !lookup_insert_ne by exact Hne. apply Hmap. }
  destruct (Hmap d) as [Heq|(Hnone & t0 & Hsome & Hold)].
  - rewrite Heq.
    destruct (domainRateLimit.lastNotified (domainRateLimit n) !! d) as [last|];
      [destruct (_ <? _)|]; unfold pruned; simpl; split_and!;
      try reflexivity; assumption.
  - rewrite Hnone, Hsome, (Sub_ltb _ _ _ Hd).
    destruct (Z.ltb_spec (td - t0) (domainRateLimit.interval (domainRateLimit n)));
      [lia|].
    unfold pruned; simpl; split_and!; try reflexivity; assumption.
Qed.

(** X8: [Cleanup] changes no later answer.  Over any run of requests whose
    domain clock readings are not before the reading of the [Cleanup], the
    notifier gives the answers it would have given without the [Cleanup]:
    a record is removed only when it could no longer deny. *)
Theorem Cleanup_transparent (reqs : list (string * time.Time * time.Time))
    (n : PushoverNotifier) (now : time.Time) :
  0 ≤ domainRateLimit.interval (domainRateLimit n) ≤ 5 * time.Minute →
  Forall (λ req, now ≤ req.2) reqs →
  (ShouldNotify_all (Cleanup n now) reqs).1 = (ShouldNotify_all n reqs).1.
Proof.
  intros Hi Hreqs.
  assert (Hp : pruned (now - 2 * domainRateLimit.interval (domainRateLimit n))
                 n (Cleanup n now)) by (apply Cleanup_pruned; duration_lia).
  revert Hp. generalize (Cleanup n now) as n'.
  set (c := now - 2 * domainRateLimit.interval (domainRateLimit n)).
  assert (Hc : c + domainRateLimit.interval (domainRateLimit n) ≤ now)
    by (subst c; lia).
  assert (Hm : 0 ≤ domainRateLimit.interval (domainRateLimit n) ≤ time.maxDuration)
    by duration_lia.
  clearbody c. clear Hi. revert n Hc Hm.
  induction Hreqs as [|[[d tg] td] reqs Htd _ IH]; intros n Hc Hm n' Hp;
    [reflexivity|].
  simpl in Htd. rewrite !ShouldNotify_all_cons. simpl.
  destruct (pruned_step c n n' d tg td Hm ltac:(lia) Hp) as [Ha Hp'].
  destruct (ShouldNotify_intervals n d tg td) as (_ & Hid & _).
  rewrite Ha. f_equal.
  apply IH; [rewrite Hid; exact Hc|rewrite Hid; exact Hm|exact Hp'].
Qed.

(** X8 at work: "a.com" was admitted at noon; twenty minutes later a
    [Cleanup] removes its record, and the request that follows is admitted
    as it would have been. *)
Lemma Cleanup_transparent_witness :
  let n1 := (ShouldNotify sample_notifier "a.com" sample_t0 sample_t0).2 in
  let t1 := sample_t0 + 20 * time.Minute in
  domainRateLimit.lastNotified (domainRateLimit (Cleanup n1 t1)) !! "a.com" = None ∧
  (ShouldNotify_all (Cleanup n1 t1) [ ("a.com", t1, t1) ]).1 =
  (ShouldNotify_all n1 [ ("a.com", t1, t1) ]).1.
Proof.
  intros n1 t1. split; [reflexivity|].
  apply (Cleanup_transparent [ ("a.com", t1, t1) ] n1 t1).
  - vm_compute. split; discriminate.
  - repeat constructor. simpl. lia.
Defined.

(** ** The caller *)

(** X9: [processNotifications] leaves the notifier as it is and hands no
    event to [SendAsync] when the context has no result or the result has no
    rule, so such a query takes nothing from either window.  Otherwise it
    asks [ShouldNotify] once, for the host, and hands over an event exactly
    when the answer is an admission; the event carries the host, the text of
    the first rule only, the reason of the result, the client address and
    ID, and the third clock reading. *)
Theorem processNotifications_spec (n : PushoverNotifier) (dctx : dnsContext)
    (host : string) (tg td te : time.Time) :
  let out := processNotifications n dctx host tg td te in
  (result dctx = None → out = (n, None)) ∧
  (∀ r, result dctx = Some r → querylog.Rules r = [] → out = (n, None)) ∧
  (∀ r rule rules,
     result dctx = Some r → querylog.Rules r = rule :: rules →
     out.1 = (ShouldNotify n host tg td).2 ∧
     (is_Some out.2 ↔ (ShouldNotify n host tg td).1 = (true, "")) ∧
     (∀ event, out.2 = Some event →
        event = {| Domain := host; RuleText := querylog.Text rule;
                   Reason := querylog.Reason r;
                   ClientIP := proxyCtx_Addr dctx; ClientID := clientID dctx;
                   Timestamp := te |})).
Proof.
  unfold processNotifications. simpl.
  destruct (result dctx) as [r|]; [|repeat split; try discriminate].
  split; [discriminate|]. split.
  - intros r0 [= <-] ->. reflexivity.
  - intros r0 rule rules [= <-] ->. rewrite ShouldNotify_unfold.
    assert (Hdenied : ∀ (reason : string) (n1 : PushoverNotifier)
                        (ev : NotificationEvent),
      ((n1, @None NotificationEvent).1 = n1) ∧
      (is_Some (n1, @None NotificationEvent).2 ↔ (false, reason) = (true, "")) ∧
      (∀ event, (n1, @None NotificationEvent).2 = Some event → event = ev)).
    { intros reason n1 ev. split; [reflexivity|]. split.
      - split; [intros [? [=]]|discriminate].
      - intros event [=]. }
    assert (Hadmitted : ∀ (n1 : PushoverNotifier) (ev : NotificationEvent),
      ((n1, Some ev).1 = n1) ∧
      (is_Some (n1, Some ev).2 ↔ (true, "") = (true, "")) ∧
      (∀ event, (n1, Some ev).2 = Some event → event = ev)).
    { intros n1 ev. split; [reflexivity|]. split.
      - split; [reflexivity|]. intros _. eexists. reflexivity.
      - intros event [= <-]. reflexivity. }
    destruct (_ <? _); [apply Hdenied|]. simpl.
    destruct (domainRateLimit.lastNotified (domainRateLimit n) !! host);
      [destruct (_ <? _)|]; simpl; first [apply Hdenied | apply Hadmitted].
Qed.

(** X9 at work: a query that matched two rules, on the sample notifier. *)
Lemma processNotifications_spec_witness :
  let r := {| querylog.IsFiltered := true; querylog.Reason := 3;
              querylog.Rules := [ {| querylog.Text := "||a.com^" |};
                                  {| querylog.Text := "||com^" |} ];
              querylog.ServiceName := "" |} in
  let dctx := {| result := Some r; proxyCtx_Addr := "192.0.2.7";
                 clientID := "laptop" |} in
  (processNotifications sample_notifier dctx "a.com"
     sample_t0 sample_t0 sample_t0).2 = Some sample_event.
Proof.
  intros r dctx.
  destruct (processNotifications_spec sample_notifier dctx "a.com"
              sample_t0 sample_t0 sample_t0) as (_ & _ & Hrules).
  destruct (Hrules r _ _ eq_refl eq_refl) as (_ & Hsome & Hevent).
  destruct (proj2 Hsome eq_refl) as [event Hev].
  rewrite Hev. f_equal. apply (Hevent event Hev).
Defined.

(** ** The row that [insertEntry] writes *)


Section Row.

Variable IP_String : list Byte.byte → string.
Variable json_Marshal : querylog.FilteringResult → string + error.
Variable c : querylog.mysqlClient.
Variable entry : querylog.logEntry.

Let args : list querylog.arg :=
  querylog.insertEntry_args IP_String json_Marshal c entry.


(** X11: [insertEntry] never passes NULL for a column that the table
    declares NOT NULL. *)
Theorem insertEntry_not_null (col : querylog.column) :
  col ∈ querylog.createTableSQL →
  querylog.not_null col = true →
  querylog.col_name col ≠ "id" →
  ∃ a, querylog.bound querylog.insertSQL args (querylog.col_name col) = Some a ∧
       a ≠ querylog.NULL.
Proof.
  subst args. unfold querylog.insertEntry_args, querylog.createTableSQL.
  destruct (querylog.insertEntry_pointers entry) as [[reason rule] name].
  rewrite !elem_of_cons, elem_of_nil. intros H Hnn Hid.
  repeat (destruct H as [->|H];
          [first [discriminate Hnn
                 | destruct Hid; reflexivity
                 | simpl; eexists; split; [reflexivity|discriminate]]|]).
  destruct H.
Qed.

(** X12: the three optional texts, client_id, upstream and ecs, are NULL
    exactly when the string of the entry is empty, and the string itself
    otherwise: an empty string is never stored, and what is stored reads
    back as the string of the entry. *)
Theorem insertEntry_optional_texts :
  (∀ s, querylog.nullString s = None ↔ s = "") ∧
  (∀ s s', querylog.nullString s = Some s' → s' = s) ∧
  querylog.bound querylog.insertSQL args "client_id" =
    Some (if decide (querylog.ClientID entry = "") then querylog.NULL
          else querylog.Str (querylog.ClientID entry)) ∧
  querylog.bound querylog.insertSQL args "upstream" =
    Some (if decide (querylog.Upstream entry = "") then querylog.NULL
          else querylog.Str (querylog.Upstream entry)) ∧
  querylog.bound querylog.insertSQL args "ecs" =
    Some (if decide (querylog.ReqECS entry = "") then querylog.NULL
          else querylog.Str (querylog.ReqECS entry)).
Proof.
  assert (Hnull : ∀ s, querylog.ptr_string (querylog.nullString s) =
                       if decide (s = "") then querylog.NULL else querylog.Str s).
  { intros s. unfold querylog.nullString.
    destruct (String.eqb_spec s ""); case_decide; try reflexivity; contradiction. }
  split; [|split].
  - intros s. unfold querylog.nullString.
    destruct (String.eqb_spec s ""); split; intros; try discriminate;
      try reflexivity; try assumption; contradiction.
  - intros s s'. unfold querylog.nullString.
    destruct (String.eqb s ""); [discriminate|]. intros [= <-]. reflexivity.
  - subst args. unfold querylog.insertEntry_args.
    destruct (querylog.insertEntry_pointers entry) as [[reason rule] name].
    simpl. rewrite !Hnull. repeat split.
Qed.

(** X13: the column result_json is never NULL: it holds the text that
    [json.Marshal] gives for the result, and the text of the empty object
    when [json.Marshal] fails; such a failure is not an error of
    [insertEntry], whose error is the one of [ExecContext]. *)
Theorem insertEntry_result_json
    (ExecContext : list string → list querylog.arg → option error) :
  querylog.bound querylog.insertSQL args "result_json" =
    Some (querylog.Str match json_Marshal (querylog.Result entry) with
                       | inl text => text
                       | inr _ => "{}"
                       end) ∧
  (∀ e, json_Marshal (querylog.Result entry) = inr e →
        querylog.bound querylog.insertSQL args "result_json" =
          Some (querylog.Str "{}") ∧
        querylog.insertEntry IP_String json_Marshal ExecContext c entry =
          ExecContext querylog.insertSQL args).
Proof.
  subst args. unfold querylog.insertEntry, querylog.insertEntry_args.
  destruct (querylog.insertEntry_pointers entry) as [[reason rule] name].
  split; [reflexivity|]. intros e ->. split; reflexivity.
Qed.

(** X14: the columns of the filter agree with the column is_filtered:
    filter_reason is NULL exactly when is_filtered is false, and
    filter_rule or service_name is other than NULL only in a row where
    is_filtered is true and filter_reason holds the reason. *)
Theorem insertEntry_filter_agrees :
  (querylog.bound querylog.insertSQL args "filter_reason" = Some querylog.NULL ↔
   querylog.bound querylog.insertSQL args "is_filtered" =
     Some (querylog.Bool false)) ∧
  (querylog.bound querylog.insertSQL args "filter_rule" ≠ Some querylog.NULL ∨
   querylog.bound querylog.insertSQL args "service_name" ≠ Some querylog.NULL →
   querylog.bound querylog.insertSQL args "is_filtered" =
     Some (querylog.Bool true) ∧
   querylog.bound querylog.insertSQL args "filter_reason" =
     Some (querylog.Int (querylog.Reason (querylog.Result entry)))).
Proof.
  destruct (insertEntry_filter_columns IP_String json_Marshal c entry)
    as (Hreason & Hrule & Hname & Hfiltered).
  cbv zeta in Hreason, Hrule, Hname, Hfiltered. subst args.
  rewrite Hreason, Hrule, Hname, Hfiltered.
  destruct (querylog.IsFiltered (querylog.Result entry)); simpl.
  - split; [split; discriminate|]. intros _. split; reflexivity.
  - split; [split; reflexivity|]. intros [H|H]; destruct H; reflexivity.
Qed.

End Row.

(** X11 at work: the column elapsed_ns of the sample entry. *)
Lemma insertEntry_not_null_witness :
  ∃ a, querylog.bound querylog.insertSQL
         (querylog.insertEntry_args sample_IP_String sample_Marshal
            {| querylog.hostname := "dns1" |} sample_entry) "elapsed_ns" = Some a ∧
       a ≠ querylog.NULL.
Proof.
  apply (insertEntry_not_null sample_IP_String sample_Marshal
           {| querylog.hostname := "dns1" |} sample_entry
           {| querylog.col_name := "elapsed_ns"; querylog.col_type := "BIGINT";
              querylog.not_null := true |}).
  - unfold querylog.createTableSQL. rewrite !elem_of_cons. tauto.
  - reflexivity.
  - discriminate.
Defined.

(** ** The making of the MySQL client *)

(** X15: [newMySQLClient] returns a client exactly when opening the handle,
    the ping and the creation of the table all succeed, and then no error;
    otherwise it returns no client and the error of the first of these
    three steps that failed.  A failure of [os.Hostname] is not an error:
    the client gets the host name "unknown". *)
Theorem newMySQLClient_result (w : querylog.outcomes) (dsn : string) :
  let ret := (querylog.newMySQLClient w dsn).1 in
  (is_Some ret.1 ↔
   querylog.Open_err w = None ∧ querylog.Ping_err w = None ∧
   querylog.Exec_err w = None) ∧
  (is_Some ret.1 ↔ ret.2 = None) ∧
  ret.2 =
    match querylog.Open_err w, querylog.Ping_err w with
    | Some err, _ => Some err
    | None, Some err => Some err
    | None, None => querylog.Exec_err w
    end ∧
  (∀ c, ret.1 = Some c →
        querylog.hostname c =
        match querylog.Hostname_res w with inl h => h | inr _ => "unknown" end).
Proof.
  assert (Hfail : ∀ (e : error) (P : Prop), (P → False) →
    (is_Some (@None querylog.mysqlClient) ↔ P) ∧
    (is_Some (@None querylog.mysqlClient) ↔ Some e = None) ∧
    (∀ c, @None querylog.mysqlClient = Some c →
          querylog.hostname c =
          match querylog.Hostname_res w with inl h => h | inr _ => "unknown" end)).
  { intros e P HP. split_and!.
    - split; [intros [? [=]]|intros H; destruct (HP H)].
    - split; [intros [? [=]]|discriminate].
    - intros c0 [=]. }
  unfold querylog.newMySQLClient, querylog.deferred_Close.
  destruct (querylog.Open_err w) as [e|]; simpl.
  { destruct (Hfail e (Some e = None ∧ querylog.Ping_err w = None ∧
                       querylog.Exec_err w = None)) as (H1 & H2 & H3);
      [intros [[=] _]|]. split_and!; [exact H1|exact H2|reflexivity|exact H3]. }
  destruct (querylog.Ping_err w) as [e|]; simpl.
  { destruct (Hfail e (@None error = None ∧ Some e = None ∧
                       querylog.Exec_err w = None)) as (H1 & H2 & H3);
      [intros (_ & [=] & _)|]. split_and!; [exact H1|exact H2|reflexivity|exact H3]. }
  destruct (querylog.Exec_err w) as [e|]; simpl.
  { destruct (Hfail e (@None error = None ∧ @None error = None ∧ Some e = None))
      as (H1 & H2 & H3);
      [intros (_ & _ & [=])|]. split_and!; [exact H1|exact H2|reflexivity|exact H3]. }
  split_and!.
  - split; [intros _; split_and!; reflexivity|intros _; eexists; reflexivity].
  - split; [reflexivity|intros _; eexists; reflexivity].
  - reflexivity.
  - intros c0 [= <-]. reflexivity.
Qed.

(** X16: the handle that [newMySQLClient] opens is closed exactly when
    the function returns an error after the opening succeeded, and then
    [Close] is the last call; a returned client has an open handle.  The
    table is created only after a successful ping, and the pool is set to
    10 open connections, 5 idle ones and a lifetime of 5 minutes before the
    ping. *)
Theorem newMySQLClient_calls (w : querylog.outcomes) (dsn : string) :
  let ret := (querylog.newMySQLClient w dsn).1 in
  let calls := (querylog.newMySQLClient w dsn).2 in
  (querylog.Close ∈ calls ↔ querylog.Open_err w = None ∧ ret.2 ≠ None) ∧
  (querylog.Close ∈ calls → last calls = Some querylog.Close) ∧
  (is_Some ret.1 → querylog.Close ∉ calls) ∧
  (querylog.ExecContext_createTableSQL ∈ calls ↔
   querylog.Open_err w = None ∧ querylog.Ping_err w = None) ∧
  (querylog.Open_err w = None →
   take 5 calls =
   [ querylog.sql_Open "mysql" dsn; querylog.SetMaxOpenConns 10;
     querylog.SetMaxIdleConns 5;
     querylog.SetConnMaxLifetime (5 * time.Minute); querylog.PingContext ]) ∧
  (querylog.Open_err w ≠ None → calls = [ querylog.sql_Open "mysql" dsn ]).
Proof.
  assert (Hin : ∀ (x : querylog.call) (l : list querylog.call),
            x ∈ l ↔ In x l) by (intros; apply list_elem_of_In).
  unfold querylog.newMySQLClient, querylog.deferred_Close.
  destruct (querylog.Open_err w), (querylog.Ping_err w), (querylog.Exec_err w);
    simpl; rewrite !Hin; simpl; split_and!;
    try reflexivity; try (intros; reflexivity);
    try (intros [? [=]]); try (intros H; exfalso; apply H; reflexivity);
    try (split; intros H; intuition (try discriminate; try congruence));
    try (intros H; intuition (try discriminate; try congruence)).
Qed.

(** A ping that fails: the handle is opened, set up, pinged and closed, and
    the error of the ping comes back. *)
Example newMySQLClient_ping_fails :
  querylog.newMySQLClient
    {| querylog.Open_err := None; querylog.Ping_err := Some "connection refused";
       querylog.Exec_err := None; querylog.Hostname_res := inl "dns1" |}
    "user:pw@/adguard" =
  ((None, Some "connection refused"),
   [ querylog.sql_Open "mysql" "user:pw@/adguard"; querylog.SetMaxOpenConns 10;
     querylog.SetMaxIdleConns 5; querylog.SetConnMaxLifetime (5 * time.Minute);
     querylog.PingContext; querylog.Close ]).
Proof. reflexivity. Qed.

(** ** The migration *)

(** X17: [migrateTo34] never fails; it sets the schema version to 34 and
    the section of the notifications to the Pushover defaults, which are
    disabled, whatever these two keys held before; it leaves every other key
    of the configuration as it is; and run a second time it changes
    nothing. *)
Theorem migrateTo34_frame (diskConf : gmap string configmigrate.yval) :
  let conf' := (configmigrate.migrateTo34 diskConf).1 in
  (configmigrate.migrateTo34 diskConf).2 = None ∧
  conf' !! "schema_version" = Some (configmigrate.YInt 34) ∧
  (∃ pushover,
     conf' !! "notifications" =
       Some (configmigrate.YObj {[ "pushover" := configmigrate.YObj pushover ]}) ∧
     pushover !! "enabled" = Some (configmigrate.YBool false) ∧
     dom pushover =
       {[ "enabled"; "app_token"; "user_key"; "rate_limit_per_5min";
          "global_rate_limit_per_min"; "priority"; "sound" ]}) ∧
  (∀ k, k ≠ "schema_version" → k ≠ "notifications" →
        conf' !! k = diskConf !! k) ∧
  (∀ v v', configmigrate.migrateTo34
             (<["notifications" := v]> (<["schema_version" := v']> diskConf)) =
           configmigrate.migrateTo34 diskConf) ∧
  configmigrate.migrateTo34 conf' = configmigrate.migrateTo34 diskConf.
Proof.
  assert (Hover : ∀ (m : gmap string configmigrate.yval) a b v v',
            <["notifications" := a]> (<["schema_version" := b]>
              (<["notifications" := v]> (<["schema_version" := v']> m))) =
            <["notifications" := a]> (<["schema_version" := b]> m)).
  { intros m a b v v'. apply map_eq. intros k.
    destruct (decide (k = "notifications")) as [->|Hn];
      [rewrite !lookup_insert_eq; reflexivity|].
    destruct (decide (k = "schema_version")) as [->|Hs].
    - rewrite !(lookup_insert_ne _ "notifications" "schema_version") by discriminate.
      rewrite !lookup_insert_eq. reflexivity.
    - rewrite !lookup_insert_ne by congruence. reflexivity. }
  unfold configmigrate.migrateTo34. simpl. split_and!.
  - reflexivity.
  - rewrite lookup_insert_ne by discriminate. apply lookup_insert_eq.
  - eexists. split; [apply lookup_insert_eq|]. split; [reflexivity|].
    rewrite !dom_insert_L, dom_singleton_L. apply set_eq. intros k.
    rewrite !elem_of_union, !elem_of_singleton. tauto.
  - intros k Hs Hn. rewrite !lookup_insert_ne by congruence. reflexivity.
  - intros v v'. f_equal. apply Hover.
  - f_equal.
    rewrite <- (Hover diskConf _ _
                  (configmigrate.YObj
                     {[ "pushover" :=
                        configmigrate.YObj
                          {[ "enabled" := configmigrate.YBool false;
                             "app_token" := configmigrate.YStr "";
                             "user_key" := configmigrate.YStr "";
                             "rate_limit_per_5min" := configmigrate.YInt 1;
                             "global_rate_limit_per_min" := configmigrate.YInt 1;
                             "priority" := configmigrate.YInt 0;
                             "sound" := configmigrate.YStr "" ]} ]})
                  (configmigrate.YInt 34)) at 2.
    reflexivity.
Qed.
